(** * The collaboration manager of [backend/collaboration_server.py]

    A shallow embedding of the in-memory room registry, the chat log and the
    Socket.IO event handlers that drive them, followed by the properties of
    the collaboration core.

    Python objects are shared: the [User] instance stored in the session
    registry under a connection handle is the very instance that sits in a
    room's [participants] list, so an attribute written through one is seen
    through the other.  The embedding therefore keeps every [User] instance
    in an object store and lets the registry and the rooms hold references
    into it. *)

From stdpp Require Import base option list strings gmap fin_maps.

(** ** Data model *)

(** Identity of a [User] instance in the object store. *)
Abbreviation ref := nat.

(** [datetime.now().isoformat()]: an ISO-8601 string, compared here by the
    instant it denotes. *)
Abbreviation timestamp := nat.

Module User.
Record t := mk {
  id : string;
  name : string;
  email : string;
  socket_id : string;
  room_id : option string;
  is_video_enabled : bool;
  is_audio_enabled : bool;
  joined_at : timestamp;
  role : string
}.

Definition set_room_id (v : option string) (u : t) : t :=
  mk (id u) (name u) (email u) (socket_id u) v
     (is_video_enabled u) (is_audio_enabled u) (joined_at u) (role u).
Definition set_joined_at (v : timestamp) (u : t) : t :=
  mk (id u) (name u) (email u) (socket_id u) (room_id u)
     (is_video_enabled u) (is_audio_enabled u) v (role u).
Definition set_role (v : string) (u : t) : t :=
  mk (id u) (name u) (email u) (socket_id u) (room_id u)
     (is_video_enabled u) (is_audio_enabled u) (joined_at u) v.
Definition set_is_video_enabled (v : bool) (u : t) : t :=
  mk (id u) (name u) (email u) (socket_id u) (room_id u)
     v (is_audio_enabled u) (joined_at u) (role u).
Definition set_is_audio_enabled (v : bool) (u : t) : t :=
  mk (id u) (name u) (email u) (socket_id u) (room_id u)
     (is_video_enabled u) v (joined_at u) (role u).

(** The dataclass defaults: [room_id=None], both media flags on,
    [role="participant"]. *)
Definition new (id name email socket_id : string) (joined_at : timestamp) : t :=
  mk id name email socket_id None true true joined_at "participant".

#[global] Instance inhabited : Inhabited t := populate (new "" "" "" "" 0).
#[global] Instance eq_dec : EqDecision t.
Proof. solve_decision. Defined.
End User.

Module Room.
Record t := mk {
  id : string;
  name : string;
  description : string;
  host_id : string;
  participants : list ref;
  created_at : timestamp;
  max_participants : Z;
  settings : list (string * bool);
  is_recording : bool
}.

Definition set_participants (v : list ref) (r : t) : t :=
  mk (id r) (name r) (description r) (host_id r) v (created_at r)
     (max_participants r) (settings r) (is_recording r).
Definition set_host_id (v : string) (r : t) : t :=
  mk (id r) (name r) (description r) v (participants r) (created_at r)
     (max_participants r) (settings r) (is_recording r).

#[global] Instance eq_dec : EqDecision t.
Proof. solve_decision. Defined.
End Room.

Module ChatMessage.
Record t := mk {
  id : string;
  room_id : string;
  user_id : string;
  user_name : string;
  message : string;
  timestamp : timestamp;
  type : string
}.

#[global] Instance eq_dec : EqDecision t.
Proof. solve_decision. Defined.
End ChatMessage.

(** The [room_data] dictionary of [create_room]; every key is optional and
    read with [dict.get(key, default)]. *)
Module RoomData.
Record t := mk {
  name : option string;
  description : option string;
  max_participants : option Z;
  settings : option (list (string * bool))
}.
Definition empty : t := mk None None None None.
End RoomData.

(** ** Insertion-ordered dictionaries

    [CollaborationManager.users] is scanned with [for ... in users.items()]
    and with [next(... for u in users.values() ...)], so the order of its
    entries is observable: a Python [dict] iterates in insertion order,
    assigning to a present key keeps its position, and [del] removes it. *)
Section Dict.
Context {V : Type}.

Fixpoint dict_get (k : string) (d : list (string * V)) : option V :=
  match d with
  | [] => None
  | (k', v) :: d' => if decide (k' = k) then Some v else dict_get k d'
  end.

Fixpoint dict_set (k : string) (v : V) (d : list (string * V)) : list (string * V) :=
  match d with
  | [] => [(k, v)]
  | (k', v') :: d' =>
      if decide (k' = k) then (k, v) :: d' else (k', v') :: dict_set k v d'
  end.

Fixpoint dict_del (k : string) (d : list (string * V)) : list (string * V) :=
  match d with
  | [] => []
  | (k', v') :: d' =>
      if decide (k' = k) then d' else (k', v') :: dict_del k d'
  end.
End Dict.

(** ** The manager's state *)

Record Manager := mkManager {
  heap : list User.t;                          (* the [User] instances *)
  rooms : gmap string Room.t;                  (* room_id -> Room *)
  users : list (string * ref);                 (* socket_id -> User *)
  user_rooms : gmap string string;             (* user_id -> room_id *)
  room_messages : gmap string (list ChatMessage.t)
}.

(** [CollaborationManager.__init__] *)
Definition init : Manager := mkManager [] ∅ [] ∅ ∅.

Definition set_heap (f : list User.t → list User.t) (st : Manager) : Manager :=
  mkManager (f (heap st)) (rooms st) (users st) (user_rooms st) (room_messages st).
Definition set_rooms (f : gmap string Room.t → gmap string Room.t) (st : Manager) : Manager :=
  mkManager (heap st) (f (rooms st)) (users st) (user_rooms st) (room_messages st).
Definition set_users (f : list (string * ref) → list (string * ref)) (st : Manager) : Manager :=
  mkManager (heap st) (rooms st) (f (users st)) (user_rooms st) (room_messages st).
Definition set_user_rooms (f : gmap string string → gmap string string) (st : Manager) : Manager :=
  mkManager (heap st) (rooms st) (users st) (f (user_rooms st)) (room_messages st).
Definition set_room_messages
    (f : gmap string (list ChatMessage.t) → gmap string (list ChatMessage.t))
    (st : Manager) : Manager :=
  mkManager (heap st) (rooms st) (users st) (user_rooms st) (f (room_messages st)).

(** Reading an instance through a reference. *)
Definition deref (st : Manager) (r : ref) : User.t := heap st !!! r.

(** [[p.id for p in participants]], read in the object store [h] and in
    the store of a state. *)
Definition ids_of (h : list User.t) (ps : list ref) : list string :=
  (λ p, User.id (h !!! p)) <$> ps.

Definition ids (st : Manager) (ps : list ref) : list string :=
  ids_of (heap st) ps.

(** The first registry entry, in insertion order, whose user has this id. *)
Definition find_session (st : Manager) (user_id : string) : option (string * ref) :=
  List.find (λ e, bool_decide (User.id (deref st e.2) = user_id)) (users st).

(** ** Exceptions and the state monad of the manager

    A Python exception leaves behind whatever was written before it was
    raised, so a computation returns its outcome together with the state. *)

Inductive exn := KeyError (key : string).

Inductive outcome (A : Type) :=
  | Return (a : A)
  | Raise (e : exn).
Arguments Return {A} a.
Arguments Raise {A} e.

Definition M (A : Type) : Type := Manager → outcome A * Manager.

Definition ret {A} (a : A) : M A := λ st, (Return a, st).
Definition raise {A} (e : exn) : M A := λ st, (Raise e, st).
Definition bind {A B} (c : M A) (k : A → M B) : M B :=
  λ st, match c st with
        | (Return a, st') => k a st'
        | (Raise e, st') => (Raise e, st')
        end.
Definition get : M Manager := λ st, (Return st, st).
Definition modify (f : Manager → Manager) : M unit := λ st, (Return tt, f st).

Notation "'let*' x ':=' c 'in' k" := (bind c (λ x, k))
  (at level 10, x binder, c at level 100, k at level 200).
Notation "c ';;' k" := (bind c (λ _, k))
  (at level 100, k at level 200, right associativity).

(** [obj.attr = v] on a [User] instance. *)
Definition setattr (r : ref) (f : User.t → User.t) : M unit :=
  modify (set_heap (λ h, <[r := f (h !!! r)]> h)).

(** [self.room_messages[room_id].append(msg)] *)
Definition append_message (room_id : string) (msg : ChatMessage.t) : M unit :=
  let* st := get in
  match room_messages st !! room_id with
  | None => raise (KeyError room_id)
  | Some log => modify (set_room_messages <[room_id := log ++ [msg]]>)
  end.

(** [del self.room_messages[room_id]] *)
Definition del_room_messages (room_id : string) : M unit :=
  let* st := get in
  match room_messages st !! room_id with
  | None => raise (KeyError room_id)
  | Some _ => modify (set_room_messages (delete room_id))
  end.

(** [l[-n:]] for a positive [n]: the last [n] elements. *)
Definition last_n {A} (n : nat) (l : list A) : list A :=
  drop (length l - n) l.

Definition default_settings : list (string * bool) :=
  [("allow_screen_share", true); ("allow_chat", true);
   ("require_approval", false); ("is_locked", false)].

Definition system_message (msg_id room_id text : string) (now : timestamp)
    : ChatMessage.t :=
  ChatMessage.mk msg_id room_id "system" "시스템" text now "system".

(** ** The operations of [CollaborationManager]

    The values that the source draws from its environment are arguments:
    [hex8] is [uuid.uuid4().hex[:8]], [msg_id] is [str(uuid.uuid4())] and
    [now] is a reading of [datetime.now()]. *)

Module CollaborationManager.

Definition create_room (room_data : RoomData.t) (host_user : ref)
    (hex8 : string) (now : timestamp) : M Room.t :=
  let* st := get in
  let room_id := "room_" +:+ hex8 in
  let room :=
    Room.mk room_id
      (default ("Room " +:+ room_id) (RoomData.name room_data))
      (default "" (RoomData.description room_data))
      (User.id (deref st host_user))
      [host_user]
      now
      (default 10%Z (RoomData.max_participants room_data))
      (default default_settings (RoomData.settings room_data))
      false in
  setattr host_user (User.set_role "host");;
  setattr host_user (User.set_room_id (Some room_id));;
  modify (set_rooms <[room_id := room]>);;
  let* st1 := get in
  modify (set_user_rooms <[User.id (deref st1 host_user) := room_id]>);;
  modify (set_room_messages <[room_id := []]>);;
  ret room.

Definition join_room (room_id : string) (user : ref)
    (now_joined : timestamp) (msg_id : string) (now_msg : timestamp) : M bool :=
  let* st := get in
  match rooms st !! room_id with
  | None => ret false
  | Some room =>
      if decide (Room.max_participants room ≤ Z.of_nat (length (Room.participants room)))%Z
      then ret false
      else if decide (User.id (deref st user) ∈ ids st (Room.participants room))
      then ret false
      else
        setattr user (User.set_room_id (Some room_id));;
        setattr user (User.set_joined_at now_joined);;
        modify (set_rooms (alter (λ r, Room.set_participants (Room.participants r ++ [user]) r) room_id));;
        let* st1 := get in
        modify (set_user_rooms <[User.id (deref st1 user) := room_id]>);;
        append_message room_id
          (system_message msg_id room_id
             (User.name (deref st1 user) +:+ "님이 참여했습니다.") now_msg);;
        ret true
  end.

Definition leave_room (user_id : string) (msg_id : string) (now : timestamp)
    : M (option string) :=
  let* st := get in
  match user_rooms st !! user_id with
  | None => ret None
  | Some room_id =>
      match rooms st !! room_id with
      | None => ret None
      | Some room =>
          let rest := filter (λ p, User.id (deref st p) ≠ user_id) (Room.participants room) in
          let announce : M (option string) :=
            let* st' := get in
            let user_name :=
              default "사용자" ((λ e, User.name (deref st' e.2)) <$> find_session st' user_id) in
            append_message room_id
              (system_message msg_id room_id (user_name +:+ "님이 나가셨습니다.") now);;
            ret (Some room_id) in
          modify (set_rooms (alter (Room.set_participants rest) room_id));;
          modify (set_user_rooms (delete user_id));;
          if decide (Room.host_id room = user_id) then
            match rest with
            | new_host :: _ =>
                setattr new_host (User.set_role "host");;
                let* st1 := get in
                modify (set_rooms (alter (Room.set_host_id (User.id (deref st1 new_host))) room_id));;
                announce
            | [] =>
                modify (set_rooms (delete room_id));;
                del_room_messages room_id;;
                ret (Some room_id)
            end
          else announce
      end
  end.

Definition add_message (room_id user_id message_text : string)
    (msg_id : string) (now : timestamp) : M (option ChatMessage.t) :=
  let* st := get in
  match rooms st !! room_id with
  | None => ret None
  | Some _ =>
      match dict_get (default "" (fst <$> find_session st user_id)) (users st) with
      | None => ret None
      | Some user =>
          let message :=
            ChatMessage.mk msg_id room_id user_id (User.name (deref st user))
              message_text now "text" in
          append_message room_id message;;
          let* st' := get in
          (if decide (500 < length (default [] (room_messages st' !! room_id)))
           then modify (set_room_messages
                          (alter (last_n 500) room_id))
           else ret tt);;
          ret (Some message)
      end
  end.

End CollaborationManager.

(** Running a computation for its final state. *)
Definition exec {A} (c : M A) (st : Manager) : Manager := (c st).2.

(** ** The Socket.IO event handlers

    What a handler asks of the transport is recorded as the list of calls it
    makes on the server object [sio].  Every connection is alone in the group
    named by its own handle, so [emit(..., room=sid)] addresses exactly the
    connection [sid]. *)

#[local] Set Warnings "-register-all".
Inductive json :=
  | JNull
  | JBool (b : bool)
  | JNum (z : Z)
  | JStr (s : string)
  | JArr (items : list json)
  | JObj (fields : list (string * json)).

(** The dictionaries that handlers pass to [emit]; [asdict] copies the
    attribute values out at the moment of the call. *)
Inductive payload :=
  | PStatus (status : string)
  | PError (message : string)
  | PRoom (room : Room.t) (participants : list User.t) (status : string)
  | PParticipantJoined (user : User.t) (room_id : string)
  | PParticipantLeft (user_id user_name : string) (room_id : option string)
  | PParticipants (participants : list User.t)
  | PChatHistory (messages : list ChatMessage.t)
  | PNewMessage (message : ChatMessage.t)
  | PSignal (from_user_id : string) (key : string) (body : json).

Inductive sio_call :=
  | Emit (event : string) (data : payload) (room : string) (skip_sid : option string)
  | EnterRoom (sid room : string)
  | LeaveRoom (sid room : string).

(** The event arguments.  A field is [None] when the key is absent from the
    client's dictionary, which makes [data[key]] raise [KeyError]. *)
Record JoinUserData := {
  jud_user_id : option string;
  jud_name : option string;
  jud_email : option string
}.

Record SignalData := {
  target_user_id : option string;
  signal_body : option json
}.

Definition handled : Type := outcome unit * Manager * list sio_call.

(** Truthiness of an [Optional[str]]. *)
Definition truthy (s : option string) : bool :=
  match s with
  | Some s => bool_decide (s ≠ "")
  | None => false
  end.

Definition asdict_participants (st : Manager) (room : Room.t) : list User.t :=
  deref st <$> Room.participants room.

Definition disconnect (sid : string) (msg_id : string) (now : timestamp)
    (st : Manager) : handled :=
  match dict_get sid (users st) with
  | None => (Return tt, st, [])
  | Some user =>
      match CollaborationManager.leave_room (User.id (deref st user)) msg_id now st with
      | (Raise e, st1) => (Raise e, st1, [])
      | (Return room_id, st1) =>
          let notices :=
            match room_id with
            | Some rid =>
                match rooms st1 !! rid with
                | Some room =>
                    if truthy room_id then
                      [Emit "participant_left"
                         (PParticipantLeft (User.id (deref st1 user))
                            (User.name (deref st1 user)) (Some rid)) rid None;
                       Emit "participants_updated"
                         (PParticipants (asdict_participants st1 room)) rid None]
                    else []
                | None => []
                end
            | None => []
            end in
          (Return tt, set_users (dict_del sid) st1, notices)
      end
  end.

Definition join_user (sid : string) (data : JoinUserData) (now : timestamp)
    (st : Manager) : Manager * list sio_call :=
  match jud_user_id data, jud_name data with
  | Some user_id, Some name =>
      let user := User.new user_id name (default "" (jud_email data)) sid now in
      (set_users (dict_set sid (length (heap st))) (set_heap (λ h, h ++ [user]) st),
       [Emit "user_registered" (PStatus "success") sid None])
  | _, _ => (st, [Emit "error" (PError "Failed to register user") sid None])
  end.

(** The three signaling handlers share one body, parameterised by the event
    name and by the key under which the session description travels. *)
Definition relay (event key : string) (sid : string) (data : SignalData)
    (st : Manager) : list sio_call :=
  match target_user_id data, signal_body data with
  | Some target, Some body =>
      match dict_get sid (users st) with
      | None => []
      | Some user =>
          let target_sid := fst <$> find_session st target in
          if truthy target_sid
          then [Emit event (PSignal (User.id (deref st user)) key body)
                  (default "" target_sid) None]
          else []
      end
  | _, _ => []
  end.

Definition webrtc_offer := relay "webrtc_offer" "offer".
Definition webrtc_answer := relay "webrtc_answer" "answer".
Definition webrtc_ice_candidate := relay "webrtc_ice_candidate" "candidate".

Definition create_room (sid : string) (data : RoomData.t) (hex8 : string)
    (now : timestamp) (st : Manager) : Manager * list sio_call :=
  match dict_get sid (users st) with
  | None => (st, [Emit "error" (PError "User not registered") sid None])
  | Some user =>
      match CollaborationManager.create_room data user hex8 now st with
      | (Return room, st1) =>
          (st1,
           [EnterRoom sid (Room.id room);
            Emit "room_created"
              (PRoom room (asdict_participants st1 room) "success") sid None])
      | (Raise _, st1) =>
          (st1, [Emit "error" (PError "Failed to create room") sid None])
      end
  end.

Definition join_room (sid : string) (data_room_id : option string)
    (now_joined : timestamp) (msg_id : string) (now_msg : timestamp)
    (st : Manager) : Manager * list sio_call :=
  let failed := Emit "error" (PError "Failed to join room") sid None in
  match dict_get sid (users st) with
  | None => (st, [Emit "error" (PError "User not registered") sid None])
  | Some user =>
      match data_room_id with
      | None => (st, [failed])
      | Some room_id =>
          match CollaborationManager.join_room room_id user now_joined msg_id now_msg st with
          | (Raise _, st1) => (st1, [failed])
          | (Return false, st1) => (st1, [failed])
          | (Return true, st1) =>
              match rooms st1 !! room_id with
              | None => (st1, [EnterRoom sid room_id; failed])
              | Some room =>
                  (st1,
                   [EnterRoom sid room_id;
                    Emit "room_joined"
                      (PRoom room (asdict_participants st1 room) "success") sid None;
                    Emit "participant_joined"
                      (PParticipantJoined (deref st1 user) room_id) room_id (Some sid);
                    Emit "participants_updated"
                      (PParticipants (asdict_participants st1 room)) room_id None;
                    Emit "chat_history"
                      (PChatHistory (last_n 50 (default [] (room_messages st1 !! room_id))))
                      sid None])
              end
          end
      end
  end.

Definition leave_room (sid : string) (msg_id : string) (now : timestamp)
    (st : Manager) : Manager * list sio_call :=
  match dict_get sid (users st) with
  | None => (st, [])
  | Some user =>
      match CollaborationManager.leave_room (User.id (deref st user)) msg_id now st with
      | (Raise _, st1) => (st1, [])
      | (Return room_id, st1) =>
          match room_id with
          | Some rid =>
              if truthy room_id then
                (st1,
                 [LeaveRoom sid rid; Emit "room_left" (PStatus "success") sid None]
                 ++ match rooms st1 !! rid with
                    | Some room =>
                        [Emit "participant_left"
                           (PParticipantLeft (User.id (deref st1 user))
                              (User.name (deref st1 user)) None) rid None;
                         Emit "participants_updated"
                           (PParticipants (asdict_participants st1 room)) rid None]
                    | None => []
                    end)
              else (st1, [])
          | None => (st1, [])
          end
      end
  end.

Definition send_message (sid : string) (data_message : option string)
    (msg_id : string) (now : timestamp) (st : Manager) : Manager * list sio_call :=
  match dict_get sid (users st) with
  | None => (st, [Emit "error" (PError "Not in a room") sid None])
  | Some user =>
      match User.room_id (deref st user) with
      | Some room_id =>
          if truthy (Some room_id) then
            match data_message with
            | None => (st, [Emit "error" (PError "Failed to send message") sid None])
            | Some text =>
                match CollaborationManager.add_message room_id
                        (User.id (deref st user)) text msg_id now st with
                | (Raise _, st1) =>
                    (st1, [Emit "error" (PError "Failed to send message") sid None])
                | (Return None, st1) => (st1, [])
                | (Return (Some message), st1) =>
                    (st1,
                     [Emit "new_message" (PNewMessage message)
                        (default "" (User.room_id (deref st1 user))) None])
                end
            end
          else (st, [Emit "error" (PError "Not in a room") sid None])
      | None => (st, [Emit "error" (PError "Not in a room") sid None])
      end
  end.

(** ** Reachable states

    One step is one thing the server does to the manager: it builds a [User]
    instance, writes or deletes a registry entry, flips a media flag, or
    calls one of the four manager operations.  Connection handles come from
    the transport and are never empty, a reference passed around always
    denotes an existing instance, and [uuid4] yields an identifier that is
    not in use. *)

Module CM := CollaborationManager.

(** [User(...)]: a new instance enters the object store. *)
Definition new_user (u : User.t) (st : Manager) : Manager :=
  set_heap (λ h, h ++ [u]) st.

Inductive step : Manager → Manager → Prop :=
  | step_new_user u st :
      step st (new_user u st)
  | step_register sid r st :
      sid ≠ "" → r < length (heap st) →
      step st (set_users (dict_set sid r) st)
  | step_unregister sid st :
      step st (set_users (dict_del sid) st)
  | step_toggle_video r b st :
      step st (exec (setattr r (User.set_is_video_enabled b)) st)
  | step_toggle_audio r b st :
      step st (exec (setattr r (User.set_is_audio_enabled b)) st)
  | step_create_room data host hex8 now st :
      host < length (heap st) →
      rooms st !! ("room_" +:+ hex8) = None →
      step st (exec (CM.create_room data host hex8 now) st)
  | step_join_room room_id user now_joined msg_id now_msg st :
      user < length (heap st) →
      step st (exec (CM.join_room room_id user now_joined msg_id now_msg) st)
  | step_leave_room user_id msg_id now st :
      step st (exec (CM.leave_room user_id msg_id now) st)
  | step_add_message room_id user_id text msg_id now st :
      step st (exec (CM.add_message room_id user_id text msg_id now) st).

Inductive reachable : Manager → Prop :=
  | reachable_init : reachable init
  | reachable_step st st' : reachable st → step st st' → reachable st'.

(** ** Well-formed states *)

(** What every room of a reachable state satisfies, relative to the object
    store [h]. *)
Record room_ok (h : list User.t) (room : Room.t) : Prop := {
  ok_refs : Forall (λ p, p < length h) (Room.participants room);
  ok_host : ∃ p ps, Room.participants room = p :: ps
                    ∧ User.id (h !!! p) = Room.host_id room
                    ∧ User.role (h !!! p) = "host";
  ok_nodup : NoDup (ids_of h (Room.participants room));
  ok_cap : (Z.of_nat (length (Room.participants room))
            ≤ Z.max 1 (Room.max_participants room))%Z
}.

Record wf (st : Manager) : Prop := {
  wf_rooms : ∀ rid room, rooms st !! rid = Some room → room_ok (heap st) room;
  wf_log : ∀ rid, is_Some (rooms st !! rid) → is_Some (room_messages st !! rid);
  wf_user_rooms : ∀ uid rid, user_rooms st !! uid = Some rid →
      ∃ room, rooms st !! rid = Some room
              ∧ uid ∈ ids_of (heap st) (Room.participants room);
  wf_sids : Forall (λ e, e.1 ≠ "" ∧ e.2 < length (heap st)) (users st);
  wf_keys : NoDup (users st).*1
}.

(** The capacity invariant as the specification words it. *)
Definition capacity_invariant (st : Manager) : Prop :=
  ∀ rid room, rooms st !! rid = Some room →
    (Z.of_nat (length (Room.participants room)) ≤ Room.max_participants room)%Z.


(** An update of an instance that leaves its [id] and [name] alone and does
    not take the host role away, and the object stores that arise from a
    given one by such updates and by new instances. *)
Definition keeps_identity (f : User.t → User.t) : Prop :=
  ∀ u, User.id (f u) = User.id u
       ∧ User.name (f u) = User.name u
       ∧ (User.role u = "host" → User.role (f u) = "host").

Record heap_ext (h h' : list User.t) : Prop := {
  ext_length : length h ≤ length h';
  ext_id : ∀ r, r < length h → User.id (h' !!! r) = User.id (h !!! r);
  ext_name : ∀ r, r < length h → User.name (h' !!! r) = User.name (h !!! r);
  ext_role : ∀ r, r < length h →
      User.role (h !!! r) = "host" → User.role (h' !!! r) = "host"
}.

(** ** The final states of the operations, in closed form *)

(** The state in which a successful [join_room] ends. *)
Definition joined (st : Manager) (room_id : string) (room : Room.t)
    (log : list ChatMessage.t) (user : ref) (now_joined : timestamp)
    (msg_id : string) (now_msg : timestamp) : Manager :=
  let h1 := <[user := User.set_room_id (Some room_id) (heap st !!! user)]> (heap st) in
  let h2 := <[user := User.set_joined_at now_joined (h1 !!! user)]> h1 in
  {| heap := h2;
     rooms := <[room_id := Room.set_participants (Room.participants room ++ [user]) room]>
                (rooms st);
     users := users st;
     user_rooms := <[User.id (deref st user) := room_id]> (user_rooms st);
     room_messages :=
       <[room_id := log ++ [system_message msg_id room_id
                               (User.name (deref st user) +:+ "님이 참여했습니다.")
                               now_msg]]> (room_messages st) |}.

(** The display name that [leave_room] puts in its notice. *)
Definition leaver_name (st : Manager) (user_id : string) : string :=
  default "사용자" ((λ e, User.name (deref st e.2)) <$> find_session st user_id).

(** The state in which [leave_room] ends when the user's room is [room]. *)
Definition departed (st : Manager) (user_id room_id : string) (room : Room.t)
    (log : list ChatMessage.t) (msg_id : string) (now : timestamp) : Manager :=
  let rest := filter (λ p, User.id (deref st p) ≠ user_id) (Room.participants room) in
  match rest with
  | [] =>
      {| heap := heap st;
         rooms := delete room_id (rooms st);
         users := users st;
         user_rooms := delete user_id (user_rooms st);
         room_messages := delete room_id (room_messages st) |}
  | first :: _ =>
      let was_host := bool_decide (Room.host_id room = user_id) in
      {| heap := if was_host
                 then <[first := User.set_role "host" (heap st !!! first)]> (heap st)
                 else heap st;
         rooms :=
           <[room_id :=
               Room.set_host_id
                 (if was_host then User.id (deref st first) else Room.host_id room)
                 (Room.set_participants rest room)]> (rooms st);
         users := users st;
         user_rooms := delete user_id (user_rooms st);
         room_messages :=
           <[room_id := log ++ [system_message msg_id room_id
                                   (leaver_name st user_id +:+ "님이 나가셨습니다.") now]]>
             (room_messages st) |}
  end.

(** ** Vocabulary of the properties *)

(** Some connection is registered for [user_id]. *)
Definition registered (st : Manager) (user_id : string) : Prop :=
  ∃ sid r, (sid, r) ∈ users st ∧ User.id (deref st r) = user_id.

(** The entry that [get_rooms] builds for one room of the listing. *)
Record RoomSummary := {
  rs_id : string;
  rs_name : string;
  rs_description : string;
  participant_count : nat;
  rs_max_participants : Z;
  host_name : string;
  rs_created_at : timestamp;
  rs_settings : list (string * bool)
}.

Definition room_summary (st : Manager) (room : Room.t) : RoomSummary :=
  {| rs_id := Room.id room;
     rs_name := Room.name room;
     rs_description := Room.description room;
     participant_count := length (Room.participants room);
     rs_max_participants := Room.max_participants room;
     host_name := match Room.participants room with
                  | p :: _ => User.name (deref st p)
                  | [] => ""
                  end;
     rs_created_at := Room.created_at room;
     rs_settings := Room.settings room |}.

(** [get_rooms]; the entries come in the order of the [rooms] dictionary,
    which this listing does not keep. *)
Definition get_rooms (st : Manager) : list RoomSummary :=
  room_summary st <$> (map_to_list (rooms st)).*2.

(** The failover policy worded by timestamps: when the host leaves a room
    of two or more, the new host is a remaining member whose [joined_at] is
    the earliest among the remaining members. *)
Definition failover_by_joined_at (st : Manager) : Prop :=
  ∀ uid rid room msg_id now,
    user_rooms st !! uid = Some rid →
    rooms st !! rid = Some room →
    Room.host_id room = uid →
    2 ≤ length (Room.participants room) →
    let st' := exec (CM.leave_room uid msg_id now) st in
    ∃ room' p,
      rooms st' !! rid = Some room'
      ∧ p ∈ Room.participants room'
      ∧ User.id (deref st' p) = Room.host_id room'
      ∧ ∀ q, q ∈ Room.participants room' →
             User.joined_at (deref st' p) ≤ User.joined_at (deref st' q).

(** The rooms whose participant list holds an instance with this id. *)
Definition rooms_listing (st : Manager) (user_id : string) : list string :=
  (filter (λ e, user_id ∈ ids st (Room.participants e.2)) (map_to_list (rooms st))).*1.

(** ** Scenarios *)

Definition ann : User.t := User.new "u1" "Ann" "ann@example.org" "sid1" 1.
Definition bob : User.t := User.new "u2" "Bob" "bob@example.org" "sid2" 2.
Definition cyd : User.t := User.new "u3" "Cyd" "cyd@example.org" "sid3" 3.
Definition dee : User.t := User.new "u4" "Dee" "dee@example.org" "sid4" 4.

(** Four registered users: the instances [0], [1], [2] and [3] are Ann,
    Bob, Cyd and Dee. *)
Definition lobby : Manager :=
  set_users (dict_set "sid4" 3) (new_user dee
    (set_users (dict_set "sid3" 2) (new_user cyd
      (set_users (dict_set "sid2" 1) (new_user bob
        (set_users (dict_set "sid1" 0) (new_user ann init))))))).

(** Ann opens a room whose [max_participants] is [0]. *)
Definition zero_capacity : Manager :=
  exec (CM.create_room (RoomData.mk None None (Some 0%Z) None) 0 "00000000" 5) lobby.

(** Ann opens a room for two, and Bob joins it. *)
Definition solo : Manager :=
  exec (CM.create_room (RoomData.mk (Some "standup") None (Some 2%Z) None)
          0 "a1b2c3d4" 5) lobby.

Definition duo : Manager :=
  exec (CM.join_room "room_a1b2c3d4" 1 6 "m1" 6) solo.

(** Ann opens a room, Bob then Cyd join it, Dee opens a second room and Bob
    joins that one too; the clock readings increase throughout. *)
Definition two_rooms : Manager :=
  exec (CM.join_room "room_0000beef" 1 9 "m3" 9)
    (exec (CM.create_room RoomData.empty 3 "0000beef" 8)
       (exec (CM.join_room "room_0000cafe" 2 7 "m2" 7)
          (exec (CM.join_room "room_0000cafe" 1 6 "m1" 6)
             (exec (CM.create_room RoomData.empty 0 "0000cafe" 5) lobby)))).

(** Ann opens a room and leaves it again. *)
Definition left_alone : Manager :=
  exec (CM.leave_room "u1" "m1" 6)
    (exec (CM.create_room RoomData.empty 0 "0000cafe" 5) lobby).

(** Ann opens a room and sends [n] chat messages to it, one per clock tick:
    the [k]-th message carries the timestamp [5 + k]. *)
Fixpoint chatter (n : nat) : Manager :=
  match n with
  | 0 => exec (CM.create_room RoomData.empty 0 "0000cafe" 5) lobby
  | S k => exec (CM.add_message "room_0000cafe" "u1" "hello" "chat" (5 + S k))
             (chatter k)
  end.

(** ** The media handlers, the room query and the read-only routes

    The events of these handlers carry their own small dictionaries. *)

Inductive reply_payload :=
  | RToggled (user_id : string) (enabled : bool)
  | RScreenShare (user_id user_name : string)
  | RRoomInfo (room : Room.t) (participants : list User.t)
  | RError (message : string).

(** [sio.emit(event, data, room=room, skip_sid=skip_sid)] *)
Inductive reply :=
  | Reply (event : string) (data : reply_payload) (room : string)
      (skip_sid : option string).

(** The body shared by [toggle_video] and [toggle_audio]: [data_enabled] is
    [None] when the client's dictionary has no ['enabled'] key, and the
    [KeyError] is then only logged. *)
Definition toggle (event : string) (set : bool → User.t → User.t)
    (read : User.t → bool) (sid : string) (data_enabled : option bool)
    (st : Manager) : Manager * list reply :=
  match dict_get sid (users st) with
  | None => (st, [])
  | Some user =>
      if truthy (User.room_id (deref st user)) then
        match data_enabled with
        | None => (st, [])
        | Some enabled =>
            let st1 := exec (setattr user (set enabled)) st in
            (st1,
             [Reply event
                (RToggled (User.id (deref st1 user)) (read (deref st1 user)))
                (default "" (User.room_id (deref st1 user))) (Some sid)])
        end
      else (st, [])
  end.

Definition toggle_video :=
  toggle "participant_video_toggled" User.set_is_video_enabled User.is_video_enabled.
Definition toggle_audio :=
  toggle "participant_audio_toggled" User.set_is_audio_enabled User.is_audio_enabled.

(** The body shared by [start_screen_share] and [stop_screen_share]. *)
Definition screen_share (event : string) (sid : string) (st : Manager) : list reply :=
  match dict_get sid (users st) with
  | None => []
  | Some user =>
      if truthy (User.room_id (deref st user)) then
        [Reply event
           (RScreenShare (User.id (deref st user)) (User.name (deref st user)))
           (default "" (User.room_id (deref st user))) (Some sid)]
      else []
  end.

Definition start_screen_share := screen_share "screen_share_started".
Definition stop_screen_share := screen_share "screen_share_stopped".

Definition get_room_info (sid : string) (data_room_id : option string)
    (st : Manager) : list reply :=
  match data_room_id with
  | None => [Reply "error" (RError "Failed to get room info") sid None]
  | Some room_id =>
      match rooms st !! room_id with
      | Some room =>
          [Reply "room_info" (RRoomInfo room (asdict_participants st room)) sid None]
      | None => [Reply "error" (RError "Room not found") sid None]
      end
  end.

(** What a route returns: a body, or [raise HTTPException(status_code,
    detail)]. *)
Inductive http (A : Type) :=
  | Body (a : A)
  | HTTPException (status_code : nat) (detail : string).
Arguments Body {A} a.
Arguments HTTPException {A} status_code detail.

(** [GET /api/collaboration/rooms/{room_id}] *)
Definition get_room (room_id : string) (st : Manager)
    : http (Room.t * list User.t) :=
  match rooms st !! room_id with
  | None => HTTPException 404 "Room not found"
  | Some room => Body (room, asdict_participants st room)
  end.

(** [l[start:]] for an integer [start] of either sign. *)
Definition slice_from {A} (start : Z) (l : list A) : list A :=
  let n := Z.of_nat (length l) in
  let i := if decide (start < 0)%Z then Z.max (start + n) 0 else Z.min start n in
  drop (Z.to_nat i) l.

(** [GET /api/collaboration/rooms/{room_id}/messages?limit=...]: the body is
    the pair of ['messages'] and ['total']. *)
Definition get_room_messages (room_id : string) (limit : Z) (st : Manager)
    : http (list ChatMessage.t * nat) :=
  match rooms st !! room_id with
  | None => HTTPException 404 "Room not found"
  | Some _ =>
      let messages := default [] (room_messages st !! room_id) in
      let recent_messages :=
        if decide (limit < Z.of_nat (length messages))%Z
        then slice_from (- limit) messages
        else messages in
      Body (recent_messages, length messages)
  end.

(** ** Runs without a second membership

    The properties that the code loses through double membership are
    stated here for the runs in which it does not occur. *)

(** Some room lists a participant with this id. *)
Definition listed (st : Manager) (user_id : string) : Prop :=
  ∃ rid room, rooms st !! rid = Some room
              ∧ user_id ∈ ids st (Room.participants room).

(** The participants are in the order of their [joined_at]. *)
Fixpoint in_joining_order (h : list User.t) (ps : list ref) : Prop :=
  match ps with
  | [] => True
  | p :: ps' =>
      Forall (λ q, User.joined_at (h !!! p) ≤ User.joined_at (h !!! q)) ps'
      ∧ in_joining_order h ps'
  end.

(** [orderly t st]: the state [st] is reached at clock reading [t] by a run
    in which clock readings never go back, a new instance carries a
    [joined_at] that is not in the future, a join is stamped with the
    current reading, and a user opens or joins a room only while no room
    lists that user. *)
Inductive orderly : timestamp → Manager → Prop :=
  | orderly_init : orderly 0 init
  | orderly_wait t t' st :
      orderly t st → t ≤ t' → orderly t' st
  | orderly_new_user t u st :
      orderly t st → User.joined_at u ≤ t → orderly t (new_user u st)
  | orderly_register t sid r st :
      orderly t st → sid ≠ "" → r < length (heap st) →
      orderly t (set_users (dict_set sid r) st)
  | orderly_unregister t sid st :
      orderly t st → orderly t (set_users (dict_del sid) st)
  | orderly_toggle_video t r b st :
      orderly t st → orderly t (exec (setattr r (User.set_is_video_enabled b)) st)
  | orderly_toggle_audio t r b st :
      orderly t st → orderly t (exec (setattr r (User.set_is_audio_enabled b)) st)
  | orderly_create_room t data host hex8 now st :
      orderly t st →
      host < length (heap st) →
      rooms st !! ("room_" +:+ hex8) = None →
      ¬ listed st (User.id (deref st host)) →
      orderly t (exec (CM.create_room data host hex8 now) st)
  | orderly_join_room t room_id user msg_id now_msg st :
      orderly t st →
      user < length (heap st) →
      ¬ listed st (User.id (deref st user)) →
      orderly t (exec (CM.join_room room_id user t msg_id now_msg) st)
  | orderly_leave_room t user_id msg_id now st :
      orderly t st → orderly t (exec (CM.leave_room user_id msg_id now) st)
  | orderly_add_message t room_id user_id text msg_id now st :
      orderly t st →
      orderly t (exec (CM.add_message room_id user_id text msg_id now) st).

(** What an orderly run keeps, beyond well-formedness. *)
Record tidy (t : timestamp) (st : Manager) : Prop := {
  tidy_time : Forall (λ u, User.joined_at u ≤ t) (heap st);
  tidy_order : ∀ rid room, rooms st !! rid = Some room →
      in_joining_order (heap st) (Room.participants room);
  tidy_map : ∀ rid room uid, rooms st !! rid = Some room →
      uid ∈ ids st (Room.participants room) → user_rooms st !! uid = Some rid
}.

(** Ann opens a room, then Bob and then Cyd join it. *)
Definition trio : Manager :=
  exec (CM.join_room "room_0000cafe" 2 7 "m2" 7)
    (exec (CM.join_room "room_0000cafe" 1 6 "m1" 6)
       (exec (CM.create_room RoomData.empty 0 "0000cafe" 5) lobby)).

(** From [two_rooms], Bob leaves once: that takes him out of the room he
    joined last. *)
Definition bob_left_once : Manager :=
  exec (CM.leave_room "u2" "m4" 10) two_rooms.
(** ** Dictionaries *)

Section DictFacts.
Context {V : Type}.
Implicit Types (d : list (string * V)) (k : string) (v : V).

Lemma dict_get_None d k : dict_get k d = None ↔ k ∉ d.*1.
Proof.
  induction d as [|[k' v'] d IH]; simpl.
  - split; [intros _; apply not_elem_of_nil | done].
  - case_decide; subst.
    + split; [done | intros []; left].
    + rewrite IH, not_elem_of_cons. naive_solver.
Qed.

Lemma dict_get_elem d k v : dict_get k d = Some v → (k, v) ∈ d.
Proof.
  induction d as [|[k' v'] d IH]; simpl; [done |].
  case_decide; subst.
  - intros [= ->]. left.
  - intros ?. right. auto.
Qed.

Lemma dict_del_keys d k k' : k' ∈ (dict_del k d).*1 → k' ∈ d.*1.
Proof.
  induction d as [|[k0 v0] d IH]; simpl; [done |].
  case_decide; subst; simpl.
  - intros ?. by right.
  - rewrite !elem_of_cons. naive_solver.
Qed.

Lemma dict_del_get d k : NoDup d.*1 → dict_get k (dict_del k d) = None.
Proof.
  induction d as [|[k0 v0] d IH]; simpl; [done |].
  rewrite NoDup_cons. intros [Hk0 Hd].
  case_decide; subst; simpl.
  - by apply dict_get_None.
  - case_decide; [done | auto].
Qed.

Lemma dict_del_NoDup d k : NoDup d.*1 → NoDup (dict_del k d).*1.
Proof.
  induction d as [|[k0 v0] d IH]; simpl; [done |].
  rewrite NoDup_cons. intros [Hk0 Hd].
  case_decide; subst; simpl; [done |].
  apply NoDup_cons. split; [| auto].
  intros ?%dict_del_keys. done.
Qed.

Lemma dict_del_Forall (P : string * V → Prop) d k :
  Forall P d → Forall P (dict_del k d).
Proof.
  induction 1 as [|[k0 v0] d HP Hd IH]; simpl; [done |].
  case_decide; [done | by constructor].
Qed.

Lemma dict_set_keys d k v k' : k' ∈ (dict_set k v d).*1 → k' = k ∨ k' ∈ d.*1.
Proof.
  induction d as [|[k0 v0] d IH]; simpl.
  - rewrite list_elem_of_singleton. auto.
  - case_decide; subst; simpl; rewrite !elem_of_cons; naive_solver.
Qed.

Lemma dict_set_NoDup d k v : NoDup d.*1 → NoDup (dict_set k v d).*1.
Proof.
  induction d as [|[k0 v0] d IH]; simpl.
  - intros _. apply NoDup_singleton.
  - rewrite NoDup_cons. intros [Hk0 Hd].
    case_decide; subst; simpl; apply NoDup_cons; split; auto.
    intros [?|?]%dict_set_keys; done.
Qed.

Lemma dict_set_Forall (P : string * V → Prop) d k v :
  P (k, v) → Forall P d → Forall P (dict_set k v d).
Proof.
  intros Hkv. induction 1 as [|[k0 v0] d HP Hd IH]; simpl.
  - by constructor.
  - case_decide; by constructor.
Qed.
End DictFacts.

(** ** The object store only grows, and never changes who an instance is

    No statement of the source assigns to [User.id], and the only value ever
    assigned to [User.role] is ["host"]. *)

Lemma keeps_set_room_id v : keeps_identity (User.set_room_id v).
Proof. by intros []. Qed.
Lemma keeps_set_joined_at v : keeps_identity (User.set_joined_at v).
Proof. by intros []. Qed.
Lemma keeps_set_role_host : keeps_identity (User.set_role "host").
Proof. by intros []. Qed.
Lemma keeps_set_video v : keeps_identity (User.set_is_video_enabled v).
Proof. by intros []. Qed.
Lemma keeps_set_audio v : keeps_identity (User.set_is_audio_enabled v).
Proof. by intros []. Qed.

Create HintDb heap.
#[local] Hint Resolve keeps_set_room_id keeps_set_joined_at keeps_set_role_host
  keeps_set_video keeps_set_audio : heap.

Lemma heap_ext_refl h : heap_ext h h.
Proof. by split. Qed.

Lemma heap_ext_trans h1 h2 h3 : heap_ext h1 h2 → heap_ext h2 h3 → heap_ext h1 h3.
Proof.
  intros [L1 I1 N1 R1] [L2 I2 N2 R2]. split.
  - lia.
  - intros r Hr. rewrite I2, I1; [done | done | lia].
  - intros r Hr. rewrite N2, N1; [done | done | lia].
  - intros r Hr Hh. apply R2; [lia | by apply R1].
Qed.

Lemma heap_ext_alloc h u : heap_ext h (h ++ [u]).
Proof.
  split.
  - rewrite length_app. lia.
  - intros r Hr. by rewrite lookup_total_app_l.
  - intros r Hr. by rewrite lookup_total_app_l.
  - intros r Hr. by rewrite lookup_total_app_l.
Qed.

Lemma lookup_total_setattr (h : list User.t) r f r' :
  <[r := f (h !!! r)]> h !!! r' =
  if decide (r = r' ∧ r < length h) then f (h !!! r) else h !!! r'.
Proof.
  case_decide as Hd.
  - destruct Hd as [<- Hr]. by rewrite list_lookup_total_insert_eq.
  - destruct (decide (r = r')) as [<-|Hne].
    + rewrite list_insert_ge; [done | lia].
    + by rewrite list_lookup_total_insert_ne.
Qed.

Lemma heap_ext_setattr h r f :
  keeps_identity f → heap_ext h (<[r := f (h !!! r)]> h).
Proof.
  intros Hf. split.
  - by rewrite length_insert.
  - intros r' _. rewrite lookup_total_setattr. case_decide as Hd; [| done].
    destruct Hd as [<- _]. apply Hf.
  - intros r' _. rewrite lookup_total_setattr. case_decide as Hd; [| done].
    destruct Hd as [<- _]. apply Hf.
  - intros r' _. rewrite lookup_total_setattr. case_decide as Hd; [| done].
    destruct Hd as [<- _]. apply Hf.
Qed.

#[local] Hint Resolve heap_ext_refl heap_ext_alloc heap_ext_setattr : heap.

Lemma ids_of_ext h h' ps :
  heap_ext h h' → Forall (λ p, p < length h) ps → ids_of h' ps = ids_of h ps.
Proof.
  intros Hext. induction 1 as [|p ps Hp Hps IH]; [done |].
  unfold ids_of in *. rewrite !fmap_cons, IH. f_equal. by apply ext_id.
Qed.

Lemma room_ok_ext h h' room : heap_ext h h' → room_ok h room → room_ok h' room.
Proof.
  intros Hext [Hrefs (p & ps & Hps & Hid & Hrole) Hnd Hcap].
  assert (p < length h) as Hp.
  { rewrite Hps in Hrefs. by apply Forall_cons in Hrefs as [? _]. }
  split.
  - eapply Forall_impl; [exact Hrefs |]. simpl. intros q Hq.
    pose proof (ext_length _ _ Hext). lia.
  - exists p, ps. split_and!; [done | |].
    + by rewrite (ext_id _ _ Hext).
    + by apply (ext_role _ _ Hext).
  - by rewrite (ids_of_ext h h').
  - done.
Qed.

Lemma elem_of_ids_of h ps uid :
  uid ∈ ids_of h ps ↔ ∃ p, p ∈ ps ∧ User.id (h !!! p) = uid.
Proof. unfold ids_of. rewrite list_elem_of_fmap. naive_solver. Qed.

Lemma ids_of_filter h ps uid :
  ids_of h (filter (λ p, User.id (h !!! p) ≠ uid) ps)
  = filter (λ i, i ≠ uid) (ids_of h ps).
Proof.
  unfold ids_of. induction ps as [|p ps IH]; [done |].
  rewrite fmap_cons, !filter_cons.
  destruct (decide (User.id (h !!! p) ≠ uid)); [rewrite fmap_cons |]; by rewrite IH.
Qed.

(** ** Every step preserves well-formedness *)

Lemma wf_update st h' rooms' ur' rm' :
  wf st → heap_ext (heap st) h' →
  (∀ rid room, rooms' !! rid = Some room →
     rooms st !! rid = Some room ∨ room_ok h' room) →
  (∀ rid, is_Some (rooms' !! rid) → is_Some (rm' !! rid)) →
  (∀ uid rid, ur' !! uid = Some rid →
     ∃ room, rooms' !! rid = Some room ∧ uid ∈ ids_of h' (Room.participants room)) →
  wf (mkManager h' rooms' (users st) ur' rm').
Proof.
  intros Hwf Hext Hrooms Hlog Hur. split; simpl; try done.
  - intros rid room [Hold|Hnew]%Hrooms; [| done].
    eapply room_ok_ext; [done |]. by eapply wf_rooms.
  - eapply Forall_impl; [apply (wf_sids _ Hwf) |]. simpl.
    intros e [? ?]. pose proof (ext_length _ _ Hext). split; [done | lia].
  - apply (wf_keys _ Hwf).
Qed.

Lemma wf_init : wf init.
Proof.
  split; simpl; try done.
  - intros rid [room Hroom]. by rewrite lookup_empty in Hroom.
  - constructor.
Qed.

Lemma wf_member_ext st h' uid rid :
  wf st → heap_ext (heap st) h' → user_rooms st !! uid = Some rid →
  ∃ room, rooms st !! rid = Some room ∧ uid ∈ ids_of h' (Room.participants room).
Proof.
  intros Hwf Hext (room & Hroom & Hin)%(wf_user_rooms _ Hwf).
  exists room. split; [done |].
  rewrite (ids_of_ext (heap st)); [done | done |].
  apply (ok_refs _ _ (wf_rooms _ Hwf _ _ Hroom)).
Qed.

Lemma wf_set_heap st h' :
  wf st → heap_ext (heap st) h' → wf (set_heap (λ _, h') st).
Proof.
  intros Hwf Hext. apply (wf_update st); [done | done | auto | apply Hwf |].
  intros uid rid Hur. by eapply wf_member_ext.
Qed.

Lemma wf_create_room data host hex8 now st :
  host < length (heap st) → rooms st !! ("room_" +:+ hex8) = None →
  wf st → wf (exec (CM.create_room data host hex8 now) st).
Proof.
  intros Hhost Hfresh Hwf.
  unfold exec, CM.create_room, bind, get, ret, modify, setattr. simpl.
  unfold set_heap, set_rooms, set_user_rooms, set_room_messages, deref; simpl.
  set (h1 := <[host := _]> (heap st)).
  set (h2 := <[host := _]> h1).
  set (rid := "room_" +:+ hex8) in *.
  assert (heap_ext (heap st) h1) as E1 by (subst h1; auto with heap).
  assert (heap_ext h1 h2) as E12 by (subst h2; auto with heap).
  assert (heap_ext (heap st) h2) as E2 by (by eapply heap_ext_trans).
  assert (User.role (h2 !!! host) = "host") as Hrole.
  { apply (ext_role _ _ E12); [subst h1; by rewrite length_insert |].
    subst h1. by rewrite list_lookup_total_insert_eq. }
  apply (wf_update st); [done | done | | |].
  - intros rid' room. rewrite lookup_insert. case_decide as Hd; [| auto].
    intros [= <-]. right. split; simpl.
    + constructor; [| constructor]. pose proof (ext_length _ _ E2). lia.
    + eexists _, _. split_and!; [done | | done]. by apply (ext_id _ _ E2).
    + apply NoDup_singleton.
    + lia.
  - intros rid'. rewrite !lookup_insert. case_decide; [eauto |]. apply Hwf.
  - intros uid rid'. rewrite lookup_insert. case_decide as Hd.
    + intros [= <-]. eexists. rewrite lookup_insert_eq. split; [done |].
      simpl. rewrite <- Hd. unfold ids_of. simpl. left.
    + intros (room & Hroom & Hin)%(wf_member_ext _ h2); [| done | done].
      exists room. split; [| done]. rewrite lookup_insert_ne; [done |].
      intros <-. congruence.
Qed.

Lemma setattr_id (h : list User.t) r f r' :
  keeps_identity f → User.id (<[r := f (h !!! r)]> h !!! r') = User.id (h !!! r').
Proof.
  intros Hf. rewrite lookup_total_setattr. case_decide as Hd; [| done].
  destruct Hd as [<- _]. apply Hf.
Qed.

Lemma setattr_name (h : list User.t) r f r' :
  keeps_identity f → User.name (<[r := f (h !!! r)]> h !!! r') = User.name (h !!! r').
Proof.
  intros Hf. rewrite lookup_total_setattr. case_decide as Hd; [| done].
  destruct Hd as [<- _]. apply Hf.
Qed.

Lemma alter_Some {A} (f : A → A) (m : gmap string A) i x :
  m !! i = Some x → alter f i m = <[i := f x]> m.
Proof.
  intros Hi. apply map_eq. intros j. rewrite lookup_alter, lookup_insert.
  case_decide; subst; by rewrite ?Hi.
Qed.


Lemma join_room_refused room_id user now_joined msg_id now_msg st :
  (∀ room, rooms st !! room_id = Some room →
     (Room.max_participants room ≤ Z.of_nat (length (Room.participants room)))%Z
     ∨ User.id (deref st user) ∈ ids st (Room.participants room)) →
  CM.join_room room_id user now_joined msg_id now_msg st = (Return false, st).
Proof.
  intros Hguard. unfold CM.join_room, bind, get. simpl.
  destruct (rooms st !! room_id) as [room|]; [| done].
  destruct (Hguard room eq_refl); repeat case_decide; done.
Qed.

Lemma join_room_accepted room_id user now_joined msg_id now_msg st room log :
  rooms st !! room_id = Some room →
  (Z.of_nat (length (Room.participants room)) < Room.max_participants room)%Z →
  User.id (deref st user) ∉ ids st (Room.participants room) →
  room_messages st !! room_id = Some log →
  CM.join_room room_id user now_joined msg_id now_msg st
  = (Return true, joined st room_id room log user now_joined msg_id now_msg).
Proof.
  intros Hroom Hcap Hnew Hlog.
  unfold CM.join_room, bind, get. simpl. rewrite Hroom.
  case_decide; [lia |]. case_decide; [done |].
  unfold setattr, append_message, modify, bind, get, ret, raise. simpl.
  rewrite Hlog. simpl. unfold joined, deref.
  unfold set_room_messages, set_user_rooms, set_rooms, set_heap. simpl.
  rewrite !setattr_id, !setattr_name by auto with heap.
  by rewrite (alter_Some _ _ _ _ Hroom).
Qed.

Lemma wf_joined room_id user now_joined msg_id now_msg st room log :
  user < length (heap st) →
  rooms st !! room_id = Some room →
  (Z.of_nat (length (Room.participants room)) < Room.max_participants room)%Z →
  User.id (deref st user) ∉ ids st (Room.participants room) →
  wf st → wf (joined st room_id room log user now_joined msg_id now_msg).
Proof.
  intros Huser Hroom Hcap Hnew Hwf. unfold joined.
  set (h1 := <[user := _]> (heap st)).
  set (h2 := <[user := _]> h1).
  assert (heap_ext (heap st) h2) as E2.
  { eapply (heap_ext_trans _ h1); [subst h1 | subst h2]; auto with heap. }
  destruct (wf_rooms _ Hwf _ _ Hroom) as [Hrefs (p & ps & Hps & Hid & Hrole) Hnd Hc].
  apply (wf_update st); [done | done | | |].
  - intros rid' room'. rewrite lookup_insert. case_decide as Hd; [| auto].
    intros [= <-]. right.
    apply (room_ok_ext _ _ _ E2). split; simpl.
    + apply Forall_app. split; [done |]. by constructor.
    + exists p, (ps ++ [user]). by rewrite Hps.
    + unfold ids_of. rewrite fmap_app. apply NoDup_app. split_and!; [done | |].
      * intros i Hi [->|[]%elem_of_nil]%elem_of_cons. done.
      * apply NoDup_singleton.
    + rewrite length_app. simpl. lia.
  - intros rid'. rewrite !lookup_insert. case_decide; [eauto |]. apply Hwf.
  - intros uid rid'. rewrite lookup_insert. case_decide as Hd.
    + intros [= <-]. eexists. rewrite lookup_insert_eq. split; [done |].
      simpl. apply elem_of_ids_of. exists user. split.
      * apply elem_of_app. right. left.
      * rewrite <- Hd. by apply (ext_id _ _ E2).
    + intros (room' & Hroom' & Hin)%(wf_member_ext _ h2); [| done | done].
      rewrite lookup_insert. case_decide as Hr; [| eauto].
      subst rid'. eexists. split; [done |]. simpl.
      assert (room' = room) as -> by congruence.
      unfold ids_of in *. rewrite fmap_app. apply elem_of_app. by left.
Qed.

Lemma join_room_cases room_id user now_joined msg_id now_msg st :
  wf st →
  CM.join_room room_id user now_joined msg_id now_msg st = (Return false, st)
  ∨ ∃ room log,
      rooms st !! room_id = Some room
      ∧ (Z.of_nat (length (Room.participants room)) < Room.max_participants room)%Z
      ∧ (User.id (deref st user) ∉ ids st (Room.participants room))
      ∧ room_messages st !! room_id = Some log
      ∧ (CM.join_room room_id user now_joined msg_id now_msg st
         = (Return true, joined st room_id room log user now_joined msg_id now_msg)).
Proof.
  intros Hwf.
  destruct (rooms st !! room_id) as [room|] eqn:Hroom.
  2: { left. apply join_room_refused. intros room. by rewrite Hroom. }
  destruct (decide (Room.max_participants room
                    ≤ Z.of_nat (length (Room.participants room)))%Z) as [Hfull|Hfree].
  { left. apply join_room_refused. intros r. rewrite Hroom. intros [= <-]. by left. }
  destruct (decide (User.id (deref st user) ∈ ids st (Room.participants room)))
    as [Hin|Hout].
  { left. apply join_room_refused. intros r. rewrite Hroom. intros [= <-]. by right. }
  destruct (wf_log _ Hwf room_id) as [log Hlog]; [by eexists |].
  right. exists room, log. split_and!; [done | lia | done | done |].
  apply join_room_accepted; [done | lia | done | done].
Qed.

Lemma wf_join_room room_id user now_joined msg_id now_msg st :
  user < length (heap st) →
  wf st → wf (exec (CM.join_room room_id user now_joined msg_id now_msg) st).
Proof.
  intros Huser Hwf. unfold exec.
  destruct (join_room_cases room_id user now_joined msg_id now_msg st Hwf)
    as [-> | (room & log & Hroom & Hcap & Hnew & Hlog & ->)]; [done |].
  by apply wf_joined.
Qed.



Lemma find_session_heap st st' user_id :
  users st' = users st →
  (∀ r, User.id (deref st' r) = User.id (deref st r)) →
  find_session st' user_id = find_session st user_id.
Proof.
  intros Hu Hid. unfold find_session. rewrite Hu. clear Hu.
  induction (users st) as [|e d IH]; simpl; [done |].
  by rewrite Hid, IH.
Qed.

Lemma leaver_name_heap st st' user_id :
  users st' = users st →
  (∀ r, User.id (deref st' r) = User.id (deref st r)) →
  (∀ r, User.name (deref st' r) = User.name (deref st r)) →
  leaver_name st' user_id = leaver_name st user_id.
Proof.
  intros Hu Hid Hname. unfold leaver_name.
  rewrite (find_session_heap st st') by done.
  destruct (find_session st user_id); simpl; by rewrite ?Hname.
Qed.

Lemma leave_room_absent user_id msg_id now st :
  user_rooms st !! user_id = None →
  CM.leave_room user_id msg_id now st = (Return None, st).
Proof. intros Hur. unfold CM.leave_room, bind, get. simpl. by rewrite Hur. Qed.

Lemma filter_nil_host h room uid :
  room_ok h room →
  filter (λ p, User.id (h !!! p) ≠ uid) (Room.participants room) = [] →
  Room.host_id room = uid.
Proof.
  intros [_ (p & ps & Hps & Hid & _) _ _]. rewrite Hps, filter_cons.
  case_decide as Hd; [done |]. intros _. rewrite <- Hid.
  by destruct (decide (User.id (h !!! p) = uid)).
Qed.

Lemma leave_room_present user_id msg_id now st room_id :
  wf st → user_rooms st !! user_id = Some room_id →
  ∃ room log,
    rooms st !! room_id = Some room
    ∧ room_messages st !! room_id = Some log
    ∧ (CM.leave_room user_id msg_id now st
       = (Return (Some room_id), departed st user_id room_id room log msg_id now)).
Proof.
  intros Hwf Hur.
  destruct (wf_user_rooms _ Hwf _ _ Hur) as (room & Hroom & Hin).
  destruct (wf_log _ Hwf room_id) as [log Hlog]; [by eexists |].
  exists room, log. split_and!; [done | done |].
  unfold CM.leave_room, bind, get. simpl. rewrite Hur, Hroom.
  unfold departed, modify. simpl.
  destruct (filter _ _) as [|first rest'] eqn:Hrest.
  - rewrite (filter_nil_host (heap st) room user_id); [| by eapply wf_rooms | done].
    case_decide; [| done].
    unfold del_room_messages, bind, get, modify, ret, raise. simpl.
    rewrite Hlog. simpl.
    unfold set_room_messages, set_rooms, set_user_rooms. simpl.
    by rewrite delete_alter_eq.
  - case_decide as Hh;
      [rewrite bool_decide_eq_true_2 by done | rewrite bool_decide_eq_false_2 by done].
    + unfold append_message, setattr, bind, get, modify, ret, raise. simpl.
      rewrite Hlog. simpl.
      unfold set_room_messages, set_rooms, set_user_rooms, set_heap, deref. simpl.
      rewrite setattr_id by auto with heap.
      rewrite alter_alter_eq, (alter_Some _ _ _ _ Hroom). simpl.
      do 7 f_equal.
      apply (leaver_name_heap st); [done | |]; intros r; unfold deref; simpl.
      * apply setattr_id; auto with heap.
      * apply setattr_name; auto with heap.
    + unfold append_message, setattr, bind, get, modify, ret, raise. simpl.
      rewrite Hlog. simpl.
      unfold set_room_messages, set_rooms, set_user_rooms, set_heap, deref. simpl.
      rewrite (alter_Some _ _ _ _ Hroom).
      by destruct room.
Qed.

Lemma wf_departed user_id room_id room log msg_id now st :
  wf st → user_rooms st !! user_id = Some room_id →
  rooms st !! room_id = Some room →
  wf (departed st user_id room_id room log msg_id now).
Proof.
  intros Hwf Hur Hroom. unfold departed, deref.
  pose proof (wf_rooms _ Hwf _ _ Hroom) as Hok.
  assert (∀ uid rid, uid ≠ user_id → user_rooms st !! uid = Some rid →
          rid = room_id →
          uid ∈ ids_of (heap st)
                  (filter (λ p, User.id (heap st !!! p) ≠ user_id)
                     (Room.participants room))) as Hstay.
  { intros uid rid Hne (room' & Hroom' & Hin)%(wf_user_rooms _ Hwf) ->.
    assert (room' = room) as -> by congruence.
    rewrite ids_of_filter. by apply list_elem_of_filter. }
  destruct (filter _ _) as [|first rest'] eqn:Hrest.
  - apply (wf_update st); [done | auto with heap | | |].
    + intros rid' room'. rewrite lookup_delete. case_decide; [done | auto].
    + intros rid'. rewrite !lookup_delete. case_decide; [by intros [] |]. apply Hwf.
    + intros uid rid'. rewrite lookup_delete. case_decide as Hu; [done |].
      intros Huid. destruct (decide (rid' = room_id)) as [->|Hr].
      { by apply (Hstay _ _ (not_eq_sym Hu)) in Huid as ?%elem_of_nil. }
      rewrite lookup_delete_ne by done. by eapply wf_user_rooms.
  - set (h' := if bool_decide (Room.host_id room = user_id) then _ else _).
    assert (heap_ext (heap st) h') as Hext.
    { subst h'. case_bool_decide; auto with heap. }
    assert (Forall (λ p, p < length (heap st)) (first :: rest')) as Hrefs.
    { rewrite <- Hrest. apply Forall_forall. intros q [_ Hq]%list_elem_of_filter.
      revert q Hq. apply Forall_forall, Hok. }
    assert (ids_of h' (first :: rest')
            = filter (λ i, i ≠ user_id) (ids_of (heap st) (Room.participants room)))
      as Hids.
    { by rewrite (ids_of_ext (heap st)), <- Hrest, ids_of_filter. }
    apply (wf_update st); [done | done | | |].
    + intros rid' room'. rewrite lookup_insert. case_decide as Hd; [| auto].
      intros [= <-]. right.
      split; cbn [Room.participants Room.host_id Room.max_participants
                  Room.set_host_id Room.set_participants].
      * eapply Forall_impl; [exact Hrefs |]. simpl. intros q Hq.
        pose proof (ext_length _ _ Hext). lia.
      * exists first, rest'. split; [done |].
        apply Forall_cons in Hrefs as [Hfirst _].
        subst h'. case_bool_decide as Hh.
        -- rewrite list_lookup_total_insert_eq by done. by destruct (heap st !!! first).
        -- destruct Hok as [_ (p & ps & Hps & Hid & Hrole) _ _].
           rewrite Hps, filter_cons in Hrest.
           rewrite decide_True in Hrest by congruence.
           by injection Hrest as <- _.
      * rewrite Hids. apply NoDup_filter, Hok.
      * etrans; [| apply Hok].
        apply inj_le. rewrite <- Hrest. apply length_filter.
    + intros rid'. rewrite !lookup_insert. case_decide; [eauto |]. apply Hwf.
    + intros uid rid'. rewrite lookup_delete. case_decide as Hu; [done |].
      intros Huid. rewrite lookup_insert. case_decide as Hr.
      * eexists. split; [done |].
        cbn [Room.participants Room.set_host_id Room.set_participants].
        rewrite (ids_of_ext (heap st)) by done.
        by apply (Hstay _ rid'); [apply not_eq_sym | |].
      * by eapply wf_member_ext.
Qed.

Lemma wf_leave_room user_id msg_id now st :
  wf st → wf (exec (CM.leave_room user_id msg_id now) st).
Proof.
  intros Hwf. unfold exec.
  destruct (user_rooms st !! user_id) as [room_id|] eqn:Hur.
  - destruct (leave_room_present user_id msg_id now st room_id Hwf Hur)
      as (room & log & Hroom & Hlog & ->).
    by apply wf_departed.
  - by rewrite leave_room_absent.
Qed.

Lemma dict_get_Some {V} (d : list (string * V)) k v :
  NoDup d.*1 → (k, v) ∈ d → dict_get k d = Some v.
Proof.
  induction d as [|[k0 v0] d IH]; simpl.
  - by intros _ ?%elem_of_nil.
  - rewrite NoDup_cons. intros [Hk0 Hd] [[= -> ->]|Hin]%elem_of_cons.
    + by rewrite decide_True.
    + rewrite decide_False; [auto |].
      intros ->. apply Hk0. apply list_elem_of_fmap. by exists (k, v).
Qed.

(** The registry lookup at the head of [add_message]: the handle found by
    the scan, or [""] when there is none, is looked up again. *)
Lemma session_lookup st user_id :
  wf st →
  dict_get (default "" (fst <$> find_session st user_id)) (users st)
  = snd <$> find_session st user_id.
Proof.
  intros Hwf. destruct (find_session st user_id) as [[sid r]|] eqn:Hfind; simpl.
  - apply dict_get_Some; [apply Hwf |].
    apply find_some in Hfind as [Hin _]. by apply list_elem_of_In.
  - apply dict_get_None. intros ([sid r] & Hsid & Hin)%list_elem_of_fmap.
    simpl in Hsid. subst sid.
    pose proof (wf_sids _ Hwf) as Hs. rewrite Forall_forall in Hs.
    by destruct (Hs _ Hin).
Qed.

Lemma last_n_short {A} n (l : list A) : length l ≤ n → last_n n l = l.
Proof. intros Hn. unfold last_n. by replace (length l - n) with 0 by lia. Qed.

Lemma length_last_n {A} n (l : list A) : length (last_n n l) = length l `min` n.
Proof. unfold last_n. rewrite length_drop. lia. Qed.

Lemma add_message_dropped room_id user_id text msg_id now st :
  wf st →
  rooms st !! room_id = None ∨ find_session st user_id = None →
  CM.add_message room_id user_id text msg_id now st = (Return None, st).
Proof.
  intros Hwf Hcond. unfold CM.add_message, bind, get. simpl.
  destruct (rooms st !! room_id) as [room|]; [| done].
  destruct Hcond as [|Hnone]; [done |].
  by rewrite session_lookup, Hnone.
Qed.

Lemma add_message_posted room_id user_id text msg_id now st room sid user log :
  wf st →
  rooms st !! room_id = Some room →
  find_session st user_id = Some (sid, user) →
  room_messages st !! room_id = Some log →
  let message := ChatMessage.mk msg_id room_id user_id (User.name (deref st user))
                   text now "text" in
  CM.add_message room_id user_id text msg_id now st
  = (Return (Some message),
     set_room_messages <[room_id := last_n 500 (log ++ [message])]> st).
Proof.
  intros Hwf Hroom Hfind Hlog message.
  unfold CM.add_message, bind, get. simpl.
  rewrite Hroom, session_lookup, Hfind by done. simpl.
  unfold append_message, bind, get, modify, ret. simpl. rewrite Hlog. simpl.
  rewrite lookup_insert_eq. simpl. fold message.
  case_decide as Hlen; simpl; unfold set_room_messages; simpl; do 2 f_equal.
  - by rewrite alter_insert_eq.
  - rewrite last_n_short; [done | lia].
Qed.

Lemma wf_add_message room_id user_id text msg_id now st :
  wf st → wf (exec (CM.add_message room_id user_id text msg_id now) st).
Proof.
  intros Hwf. unfold exec.
  destruct (rooms st !! room_id) as [room|] eqn:Hroom;
    [| by rewrite add_message_dropped by auto].
  destruct (find_session st user_id) as [[sid user]|] eqn:Hfind;
    [| by rewrite add_message_dropped by auto].
  destruct (wf_log _ Hwf room_id) as [log Hlog]; [by eexists |].
  erewrite add_message_posted by done. simpl.
  destruct st as [h rs us ur rm]. unfold set_room_messages. simpl in *.
  apply (wf_update (mkManager h rs us ur rm)); simpl;
    [done | auto with heap | auto | | apply Hwf].
  intros rid. rewrite lookup_insert. case_decide; [eauto | apply Hwf].
Qed.

Lemma wf_setattr r f st :
  keeps_identity f → wf st → wf (exec (setattr r f) st).
Proof. intros Hf Hwf. apply wf_set_heap; [done |]. by apply heap_ext_setattr. Qed.

Lemma wf_step st st' : step st st' → wf st → wf st'.
Proof.
  destruct 1; intros Hwf.
  - apply wf_set_heap; auto with heap.
  - destruct Hwf as [? ? ? Hs Hk]. split; simpl; try done.
    + by apply dict_set_Forall.
    + by apply dict_set_NoDup.
  - destruct Hwf as [? ? ? Hs Hk]. split; simpl; try done.
    + by apply dict_del_Forall.
    + by apply dict_del_NoDup.
  - apply wf_setattr; auto with heap.
  - apply wf_setattr; auto with heap.
  - by apply wf_create_room.
  - by apply wf_join_room.
  - by apply wf_leave_room.
  - by apply wf_add_message.
Qed.

Theorem reachable_wf st : reachable st → wf st.
Proof. induction 1; [apply wf_init | by eapply wf_step]. Qed.

(** ** The scenarios are reachable *)

Lemma reachable_lobby : reachable lobby.
Proof.
  unfold lobby.
  repeat (eapply reachable_step;
          [eapply reachable_step; [| apply step_new_user]
          | apply step_register; [done | simpl; lia]]).
  apply reachable_init.
Qed.

Lemma reachable_create data host hex8 now st :
  reachable st → host < length (heap st) →
  rooms st !! ("room_" +:+ hex8) = None →
  reachable (exec (CM.create_room data host hex8 now) st).
Proof. intros. eapply reachable_step; [done | by constructor]. Qed.

Lemma reachable_join room_id user now_joined msg_id now_msg st :
  reachable st → user < length (heap st) →
  reachable (exec (CM.join_room room_id user now_joined msg_id now_msg) st).
Proof. intros. eapply reachable_step; [done | by constructor]. Qed.

Lemma reachable_leave user_id msg_id now st :
  reachable st → reachable (exec (CM.leave_room user_id msg_id now) st).
Proof. intros. eapply reachable_step; [done | by constructor]. Qed.

Lemma reachable_add room_id user_id text msg_id now st :
  reachable st →
  reachable (exec (CM.add_message room_id user_id text msg_id now) st).
Proof. intros. eapply reachable_step; [done | by constructor]. Qed.

Lemma reachable_zero_capacity : reachable zero_capacity.
Proof. apply reachable_create; [apply reachable_lobby | vm_compute; lia | done]. Qed.

Lemma reachable_solo : reachable solo.
Proof. apply reachable_create; [apply reachable_lobby | vm_compute; lia | done]. Qed.

Lemma reachable_duo : reachable duo.
Proof. apply reachable_join; [apply reachable_solo | vm_compute; lia]. Qed.

Lemma reachable_two_rooms : reachable two_rooms.
Proof.
  apply reachable_join; [| vm_compute; lia].
  apply reachable_create; [| vm_compute; lia | by vm_compute].
  do 2 (apply reachable_join; [| vm_compute; lia]).
  apply reachable_create; [apply reachable_lobby | vm_compute; lia | done].
Qed.

Lemma reachable_left_alone : reachable left_alone.
Proof.
  apply reachable_leave.
  apply reachable_create; [apply reachable_lobby | vm_compute; lia | done].
Qed.

Lemma reachable_chatter n : reachable (chatter n).
Proof.
  induction n as [|n IH]; simpl.
  - apply reachable_create; [apply reachable_lobby | vm_compute; lia | done].
  - by apply reachable_add.
Qed.

(** ** The handlers stay within the reachable states *)

Lemma registered_ref st sid user :
  reachable st → dict_get sid (users st) = Some user → user < length (heap st).
Proof.
  intros Hwf%reachable_wf Hget%dict_get_elem.
  pose proof (wf_sids _ Hwf) as Hs. rewrite Forall_forall in Hs.
  by destruct (Hs _ Hget).
Qed.

Lemma join_user_reachable sid data now st :
  sid ≠ "" → reachable st → reachable (join_user sid data now st).1.
Proof.
  intros Hsid Hreach. unfold join_user.
  destruct (jud_user_id data), (jud_name data); simpl; try done.
  eapply reachable_step; [eapply reachable_step; [done | apply step_new_user] |].
  apply step_register; [done |]. simpl. rewrite length_app. simpl. lia.
Qed.

Lemma create_room_reachable sid data hex8 now st :
  rooms st !! ("room_" +:+ hex8) = None →
  reachable st → reachable (create_room sid data hex8 now st).1.
Proof.
  intros Hfresh Hreach. unfold create_room.
  destruct (dict_get sid (users st)) as [user|] eqn:Hget; [| done].
  pose proof (reachable_create data user hex8 now st Hreach
                (registered_ref _ _ _ Hreach Hget) Hfresh) as Hnext.
  unfold exec in Hnext.
  by destruct (CM.create_room data user hex8 now st) as [[room|e] st1].
Qed.

Lemma join_room_reachable sid data_room_id now_joined msg_id now_msg st :
  reachable st →
  reachable (join_room sid data_room_id now_joined msg_id now_msg st).1.
Proof.
  intros Hreach. unfold join_room.
  destruct (dict_get sid (users st)) as [user|] eqn:Hget; [| done].
  destruct data_room_id as [room_id|]; [| done].
  pose proof (reachable_join room_id user now_joined msg_id now_msg st Hreach
                (registered_ref _ _ _ Hreach Hget)) as Hnext.
  unfold exec in Hnext.
  destruct (CM.join_room room_id user now_joined msg_id now_msg st)
    as [[[|]|e] st1]; try done.
  by destruct (rooms st1 !! room_id).
Qed.

Lemma leave_room_reachable sid msg_id now st :
  reachable st → reachable (leave_room sid msg_id now st).1.
Proof.
  intros Hreach. unfold leave_room.
  destruct (dict_get sid (users st)) as [user|]; [| done].
  pose proof (reachable_leave (User.id (deref st user)) msg_id now st Hreach) as Hnext.
  unfold exec in Hnext.
  destruct (CM.leave_room (User.id (deref st user)) msg_id now st)
    as [[[rid|]|e] st1]; try done.
  by destruct (truthy (Some rid)).
Qed.

Lemma send_message_reachable sid data_message msg_id now st :
  reachable st → reachable (send_message sid data_message msg_id now st).1.
Proof.
  intros Hreach. unfold send_message.
  destruct (dict_get sid (users st)) as [user|]; [| done].
  destruct (User.room_id (deref st user)) as [room_id|]; [| done].
  destruct (truthy (Some room_id)); [| done].
  destruct data_message as [text|]; [| done].
  pose proof (reachable_add room_id (User.id (deref st user)) text msg_id now st
                Hreach) as Hnext.
  unfold exec in Hnext.
  by destruct (CM.add_message room_id (User.id (deref st user)) text msg_id now st)
    as [[[m|]|e] st1].
Qed.

Lemma disconnect_reachable sid msg_id now st :
  reachable st → reachable (disconnect sid msg_id now st).1.2.
Proof.
  intros Hreach. unfold disconnect.
  destruct (dict_get sid (users st)) as [user|]; [| done].
  pose proof (reachable_leave (User.id (deref st user)) msg_id now st Hreach) as Hnext.
  unfold exec in Hnext.
  destruct (CM.leave_room (User.id (deref st user)) msg_id now st)
    as [[rid|e] st1]; simpl in *; [| done].
  eapply reachable_step; [done | apply step_unregister].
Qed.

(** ** Properties of the collaboration core *)

(** C1, as the specification words it, fails: [create_room] seats the host
    whatever [max_participants] the client sent, so the room that Ann opens
    with [max_participants = 0] has one participant. *)
Lemma capacity_invariant_fails :
  reachable zero_capacity ∧ ¬ capacity_invariant zero_capacity.
Proof.
  split; [apply reachable_zero_capacity |].
  intros Hcap.
  specialize (Hcap "room_00000000"
    (Room.mk "room_00000000" "Room room_00000000" "" "u1" [0] 5 0
       default_settings false) eq_refl).
  simpl in Hcap. lia.
Qed.

(** C1 (amended): in every reachable state every room has at most
    [max(1, max_participants)] participants: the host seated by
    [create_room] is never refused, and [join_room] never lets a room grow
    beyond [max_participants]. *)
Theorem capacity_bound st rid room :
  reachable st →
  rooms st !! rid = Some room →
  (Z.of_nat (length (Room.participants room))
   ≤ Z.max 1 (Room.max_participants room))%Z.
Proof. intros Hwf%reachable_wf Hroom. eapply ok_cap, wf_rooms; done. Qed.

Lemma capacity_bound_witness :
  ∃ room, rooms duo !! "room_a1b2c3d4" = Some room
          ∧ (Z.of_nat (length (Room.participants room))
             ≤ Z.max 1 (Room.max_participants room))%Z.
Proof.
  eexists. split; [reflexivity |].
  apply (capacity_bound duo "room_a1b2c3d4"); [apply reachable_duo | reflexivity].
Defined.

(** C10: in every reachable state the first element of a room's participant
    list is the host: its [id] is the room's [host_id] and its [role] is
    ["host"]; hence the [host_name] that the room listing reports is the
    display name of the host. *)
Theorem host_is_first st rid room :
  reachable st →
  rooms st !! rid = Some room →
  ∃ p ps,
    Room.participants room = p :: ps
    ∧ User.id (deref st p) = Room.host_id room
    ∧ User.role (deref st p) = "host"
    ∧ host_name (room_summary st room) = User.name (deref st p).
Proof.
  intros Hwf%reachable_wf Hroom.
  destruct (ok_host _ _ (wf_rooms _ Hwf _ _ Hroom)) as (p & ps & Hps & Hid & Hrole).
  exists p, ps. unfold room_summary, deref. simpl. by rewrite Hps.
Qed.

Lemma host_is_first_witness :
  ∃ room, rooms duo !! "room_a1b2c3d4" = Some room
    ∧ ∃ p ps,
        Room.participants room = p :: ps
        ∧ User.id (deref duo p) = Room.host_id room
        ∧ User.role (deref duo p) = "host"
        ∧ host_name (room_summary duo room) = User.name (deref duo p).
Proof.
  eexists. split; [reflexivity |].
  apply (host_is_first duo "room_a1b2c3d4"); [apply reachable_duo | reflexivity].
Defined.

(** The failover policy worded by timestamps does not hold of every
    reachable state.  Bob joined Ann's room before Cyd did, and later joined
    Dee's room as well, which overwrote the [joined_at] of the one instance
    that both rooms list.  When Ann leaves, Bob becomes host although Cyd's
    [joined_at] is the earlier one. *)
Lemma failover_by_joined_at_fails :
  reachable two_rooms ∧ ¬ failover_by_joined_at two_rooms.
Proof.
  split; [apply reachable_two_rooms |].
  intros Hpol.
  destruct (Hpol "u1" "room_0000cafe"
              (Room.mk "room_0000cafe" "Room room_0000cafe" "" "u1" [0; 1; 2] 5 10
                 default_settings false) "m4" 10 eq_refl eq_refl eq_refl)
    as (room' & p & Hroom' & Hp & Hid & Hmin); [simpl; lia |].
  vm_compute in Hroom'. injection Hroom' as <-.
  change (p ∈ [1; 2]) in Hp.
  apply elem_of_cons in Hp as [-> | Hp].
  - assert (2 ∈ [1; 2]) as H2 by (right; left).
    apply Hmin in H2. vm_compute in H2. lia.
  - apply list_elem_of_singleton in Hp as ->. vm_compute in Hid. discriminate.
Qed.

(** Failover by list order: in every reachable state the [host_id] of a
    room is the [id] of one of its participants; and when the host leaves a
    room of two or more, the first of the remaining participants, in the
    order of the list (the order in which they joined this room), becomes
    the host: the room's [host_id] is its [id] and its [role] is
    ["host"]. *)
Theorem host_failover st :
  reachable st →
  (∀ rid room, rooms st !! rid = Some room →
     Room.participants room ≠ []
     ∧ Room.host_id room ∈ ids st (Room.participants room))
  ∧ (∀ uid rid room msg_id now,
       user_rooms st !! uid = Some rid →
       rooms st !! rid = Some room →
       Room.host_id room = uid →
       2 ≤ length (Room.participants room) →
       let st' := exec (CM.leave_room uid msg_id now) st in
       ∃ first rest room',
         filter (λ p, User.id (deref st p) ≠ uid) (Room.participants room)
           = first :: rest
         ∧ rooms st' !! rid = Some room'
         ∧ Room.participants room' = first :: rest
         ∧ Room.host_id room' = User.id (deref st' first)
         ∧ User.role (deref st' first) = "host").
Proof.
  intros Hreach. pose proof (reachable_wf _ Hreach) as Hwf. split.
  - intros rid room Hroom.
    destruct (ok_host _ _ (wf_rooms _ Hwf _ _ Hroom)) as (p & ps & Hps & Hid & _).
    rewrite Hps. split; [done |]. rewrite <- Hid. left.
  - intros uid rid room msg_id now Hur Hroom Hhost Hlen st'.
    pose proof (wf_rooms _ Hwf _ _ Hroom) as Hok.
    destruct (leave_room_present uid msg_id now st rid Hwf Hur)
      as (room0 & log & Hroom0 & Hlog & Hrun).
    assert (room0 = room) as -> by congruence.
    subst st'. unfold exec. rewrite Hrun. simpl. unfold departed.
    destruct (filter _ _) as [|first rest] eqn:Hrest.
    { exfalso.
      assert (length (filter (λ i, i ≠ uid)
                        (ids_of (heap st) (Room.participants room))) = 0) as Hz.
      { rewrite <- ids_of_filter. unfold deref in Hrest. by rewrite Hrest. }
      pose proof (ok_nodup _ _ Hok) as Hnd.
      assert (length (ids_of (heap st) (Room.participants room)) ≤ 1); [| 
        unfold ids_of in *; rewrite length_fmap in *; lia].
      clear -Hz Hnd. induction Hnd as [|i l Hi Hnd IH]; simpl; [lia |].
      rewrite filter_cons in Hz. case_decide as Hd; [done |].
      assert (i = uid) as -> by first [exact Hd | by apply dec_stable].
      destruct l as [|j l]; simpl; [lia |]. exfalso.
      rewrite filter_cons in Hz. case_decide as Hj; [done |].
      assert (j = uid) as -> by first [exact Hj | by apply dec_stable].
      apply Hi. left. }
    exists first, rest. eexists. simpl. rewrite lookup_insert_eq.
    rewrite bool_decide_eq_true_2 by done.
    split_and!; [done | done | done | |]; simpl; unfold deref; simpl.
    + by rewrite setattr_id by auto with heap.
    + assert (first < length (heap st)) as Hfirst.
      { assert (first ∈ filter (λ p, User.id (deref st p) ≠ uid)
                  (Room.participants room)) as [_ Hin]%list_elem_of_filter
          by (rewrite Hrest; left).
        pose proof (ok_refs _ _ Hok) as Hrefs. rewrite Forall_forall in Hrefs. auto. }
      by rewrite list_lookup_total_insert_eq.
Qed.

Lemma host_failover_witness :
  ∃ room,
    rooms duo !! "room_a1b2c3d4" = Some room
    ∧ let st' := exec (CM.leave_room "u1" "m2" 7) duo in
      ∃ first rest room',
        filter (λ p, User.id (deref duo p) ≠ "u1") (Room.participants room)
          = first :: rest
        ∧ rooms st' !! "room_a1b2c3d4" = Some room'
        ∧ Room.participants room' = first :: rest
        ∧ Room.host_id room' = User.id (deref st' first)
        ∧ User.role (deref st' first) = "host".
Proof.
  eexists. split; [reflexivity |].
  apply (proj2 (host_failover duo reachable_duo) "u1" "room_a1b2c3d4");
    [reflexivity | reflexivity | reflexivity | simpl; lia].
Defined.

(** C2: [join_room] tests, in this order, that the room exists, that it is
    not full and that no participant of it has the user's id.  When a test
    fails it returns [False] and the state is the one it started from.
    Otherwise it returns [True]; the user's instance has the new [room_id]
    and [joined_at] and no other instance changes; the user is appended to
    the room's participants; the user-room mapping sends the user's id to
    the room; and the join notice is appended to the room's log. *)
Theorem join_room_contract st room_id user now_joined msg_id now_msg :
  reachable st →
  user < length (heap st) →
  let run := CM.join_room room_id user now_joined msg_id now_msg st in
  match rooms st !! room_id with
  | None => run = (Return false, st)
  | Some room =>
      if decide (Room.max_participants room
                 ≤ Z.of_nat (length (Room.participants room)))%Z
      then run = (Return false, st)
      else if decide (User.id (deref st user) ∈ ids st (Room.participants room))
      then run = (Return false, st)
      else
        ∃ log,
          room_messages st !! room_id = Some log
          ∧ run.1 = Return true
          ∧ deref run.2 user
            = User.set_joined_at now_joined
                (User.set_room_id (Some room_id) (deref st user))
          ∧ (∀ r, r ≠ user → deref run.2 r = deref st r)
          ∧ rooms run.2
            = <[room_id := Room.set_participants
                             (Room.participants room ++ [user]) room]> (rooms st)
          ∧ user_rooms run.2
            = <[User.id (deref st user) := room_id]> (user_rooms st)
          ∧ room_messages run.2
            = <[room_id :=
                  log ++ [ChatMessage.mk msg_id room_id "system" "시스템"
                            (User.name (deref st user) +:+ "님이 참여했습니다.")
                            now_msg "system"]]> (room_messages st)
          ∧ users run.2 = users st
  end.
Proof.
  intros Hwf%reachable_wf Huser run. subst run.
  destruct (rooms st !! room_id) as [room|] eqn:Hroom.
  2: { apply join_room_refused. intros room. rewrite Hroom. intros [=]. }
  case_decide as Hfull.
  { apply join_room_refused. intros r. rewrite Hroom. intros [= <-]. by left. }
  case_decide as Hin.
  { apply join_room_refused. intros r. rewrite Hroom. intros [= <-]. by right. }
  destruct (wf_log _ Hwf room_id) as [log Hlog]; [by eexists |].
  exists log. rewrite (join_room_accepted _ _ _ _ _ _ room log) by (done || lia).
  unfold joined, deref. simpl. split_and!; try done.
  - rewrite !list_lookup_total_insert_eq; [done | done |].
    by rewrite length_insert.
  - intros r Hr. by rewrite !list_lookup_total_insert_ne.
Qed.

Lemma join_room_contract_witness :
  let run := CM.join_room "room_a1b2c3d4" 1 6 "m1" 6 solo in
  ∃ log,
    room_messages solo !! "room_a1b2c3d4" = Some log
    ∧ run.1 = Return true
    ∧ deref run.2 1
      = User.set_joined_at 6 (User.set_room_id (Some "room_a1b2c3d4") (deref solo 1))
    ∧ (∀ r, r ≠ 1 → deref run.2 r = deref solo r)
    ∧ rooms run.2
      = <["room_a1b2c3d4" :=
            Room.mk "room_a1b2c3d4" "standup" "" "u1" [0; 1] 5 2 default_settings false]>
          (rooms solo)
    ∧ user_rooms run.2 = <["u2" := "room_a1b2c3d4"]> (user_rooms solo)
    ∧ room_messages run.2
      = <["room_a1b2c3d4" :=
            log ++ [ChatMessage.mk "m1" "room_a1b2c3d4" "system" "시스템"
                      "Bob님이 참여했습니다." 6 "system"]]> (room_messages solo)
    ∧ users run.2 = users solo.
Proof.
  apply (join_room_contract solo "room_a1b2c3d4" 1 6 "m1" 6);
    [apply reachable_solo | vm_compute; lia].
Defined.

(** Scenario B: a third user is refused by the full room and nothing
    changes. *)
Example full_room_refuses :
  CM.join_room "room_a1b2c3d4" 2 7 "m2" 7 duo = (Return false, duo).
Proof. reflexivity. Qed.

(** [leave_room] by the user-room mapping: it returns [None] and changes
    nothing when the mapping has no entry for the user.  Otherwise it returns the id of the
    user's room, drops the user from the mapping and from the room's
    participants, and then: if nobody remains, the room and its log are
    deleted; if somebody remains, the room keeps the remaining participants
    in their order and the departure notice is appended to its log. *)
Theorem leave_room_contract st user_id msg_id now :
  reachable st →
  let run := CM.leave_room user_id msg_id now st in
  match user_rooms st !! user_id with
  | None => run = (Return None, st)
  | Some room_id =>
      ∃ room log,
        rooms st !! room_id = Some room
        ∧ user_id ∈ ids st (Room.participants room)
        ∧ room_messages st !! room_id = Some log
        ∧ run.1 = Return (Some room_id)
        ∧ user_rooms run.2 = delete user_id (user_rooms st)
        ∧ users run.2 = users st
        ∧ let rest := filter (λ p, User.id (deref st p) ≠ user_id)
                        (Room.participants room) in
          match rest with
          | [] =>
              rooms run.2 = delete room_id (rooms st)
              ∧ room_messages run.2 = delete room_id (room_messages st)
          | _ :: _ =>
              (∃ room', rooms run.2 = <[room_id := room']> (rooms st)
                        ∧ Room.participants room' = rest)
              ∧ room_messages run.2
                = <[room_id :=
                      log ++ [ChatMessage.mk msg_id room_id "system" "시스템"
                                (leaver_name st user_id +:+ "님이 나가셨습니다.")
                                now "system"]]> (room_messages st)
          end
  end.
Proof.
  intros Hwf%reachable_wf run. subst run.
  destruct (user_rooms st !! user_id) as [room_id|] eqn:Hur.
  2: { by apply leave_room_absent. }
  destruct (leave_room_present user_id msg_id now st room_id Hwf Hur)
    as (room & log & Hroom & Hlog & ->).
  exists room, log. unfold departed. simpl.
  assert (user_id ∈ ids st (Room.participants room)) as Hin.
  { destruct (wf_user_rooms _ Hwf _ _ Hur) as (room' & Hroom' & Hin).
    by assert (room' = room) as -> by congruence. }
  destruct (filter _ _) as [|first rest]; simpl; split_and!; try done.
  by eexists.
Qed.

Lemma leave_room_contract_witness :
  let run := CM.leave_room "u2" "m2" 7 duo in
  ∃ room log,
    rooms duo !! "room_a1b2c3d4" = Some room
    ∧ "u2" ∈ ids duo (Room.participants room)
    ∧ room_messages duo !! "room_a1b2c3d4" = Some log
    ∧ run.1 = Return (Some "room_a1b2c3d4")
    ∧ user_rooms run.2 = delete "u2" (user_rooms duo)
    ∧ users run.2 = users duo
    ∧ (∃ room', rooms run.2 = <["room_a1b2c3d4" := room']> (rooms duo)
                ∧ Room.participants room' = [0])
    ∧ room_messages run.2
      = <["room_a1b2c3d4" :=
            log ++ [ChatMessage.mk "m2" "room_a1b2c3d4" "system" "시스템"
                      "Bob님이 나가셨습니다." 7 "system"]]> (room_messages duo).
Proof.
  destruct (leave_room_contract duo "u2" "m2" 7 reachable_duo)
    as (room & log & Hroom & Hin & Hlog & H1 & H2 & H3 & H4).
  exists room, log. split_and!; try done.
  - vm_compute in Hroom. injection Hroom as <-. apply H4.
  - vm_compute in Hroom. injection Hroom as <-. apply H4.
Defined.

(** Scenario D: the last member leaves, and the room and its log are
    gone while its id is still returned. *)
Example last_member_leaves :
  let run := CM.leave_room "u1" "m1" 6 solo in
  run.1 = Return (Some "room_a1b2c3d4")
  ∧ rooms run.2 !! "room_a1b2c3d4" = None
  ∧ room_messages run.2 !! "room_a1b2c3d4" = None.
Proof. by vm_compute. Qed.

(** C7: [add_message] returns [None] and leaves the state as it was exactly
    when the room does not exist or no connection is registered for the
    user id.  Otherwise it returns a new message with the given room id,
    user id and text and with the display name of the first registered
    instance that has this user id; that message is put at the end of the
    room's log, of which the last 500 entries are kept, and nothing else
    changes. *)
Theorem add_message_contract st room_id user_id text msg_id now :
  reachable st →
  let run := CM.add_message room_id user_id text msg_id now st in
  (run = (Return None, st)
   ↔ rooms st !! room_id = None ∨ ¬ registered st user_id)
  ∧ (is_Some (rooms st !! room_id) → registered st user_id →
     ∃ sid user log,
       find_session st user_id = Some (sid, user)
       ∧ (sid, user) ∈ users st
       ∧ User.id (deref st user) = user_id
       ∧ room_messages st !! room_id = Some log
       ∧ let message := ChatMessage.mk msg_id room_id user_id
                           (User.name (deref st user)) text now "text" in
         run.1 = Return (Some message)
         ∧ room_messages run.2
           = <[room_id := last_n 500 (log ++ [message])]> (room_messages st)
         ∧ (length log < 500 →
            room_messages run.2 = <[room_id := log ++ [message]]> (room_messages st))
         ∧ heap run.2 = heap st ∧ rooms run.2 = rooms st
         ∧ users run.2 = users st ∧ user_rooms run.2 = user_rooms st).
Proof.
  intros Hwf%reachable_wf run. subst run.
  assert (find_session st user_id = None ↔ ¬ registered st user_id) as Hreg.
  { unfold registered, find_session. split.
    - intros Hnone (sid & r & Hin & Hid).
      apply list_elem_of_In in Hin.
      pose proof (find_none _ _ Hnone _ Hin) as Hf. simpl in Hf.
      by rewrite bool_decide_eq_true_2 in Hf.
    - intros Hno. destruct (find _ _) as [[sid r]|] eqn:Hfind; [| done].
      apply find_some in Hfind as [Hin Hid]. simpl in Hid.
      exfalso. apply Hno. exists sid, r. split.
      + by apply list_elem_of_In.
      + by apply bool_decide_eq_true_1 in Hid. }
  destruct (rooms st !! room_id) as [room|] eqn:Hroom.
  2: { split.
       - split; [auto |]. intros _. apply add_message_dropped; auto.
       - by intros []. }
  destruct (find_session st user_id) as [[sid user]|] eqn:Hfind.
  2: { split.
       - split; [intros _; right; by apply Hreg |].
         intros _. apply add_message_dropped; auto.
       - intros _ Hr. by apply Hreg in Hr. }
  destruct (wf_log _ Hwf room_id) as [log Hlog]; [by eexists |].
  rewrite (add_message_posted _ _ _ _ _ _ room sid user log) by done.
  split.
  - split; [done |]. intros [|Hno]; [done |]. by apply Hreg in Hno.
  - intros _ _. exists sid, user, log. simpl.
    pose proof Hfind as [Hin Hid]%find_some. simpl in Hid.
    split_and!; try done.
    + by apply list_elem_of_In.
    + by apply bool_decide_eq_true_1 in Hid.
    + intros Hlen. rewrite last_n_short; [done |].
      rewrite length_app. simpl. lia.
Qed.

Lemma add_message_contract_witness :
  let run := CM.add_message "room_a1b2c3d4" "u2" "hi" "m2" 7 duo in
  is_Some (rooms duo !! "room_a1b2c3d4") ∧ registered duo "u2"
  ∧ ∃ sid user log,
      find_session duo "u2" = Some (sid, user)
      ∧ (sid, user) ∈ users duo
      ∧ User.id (deref duo user) = "u2"
      ∧ room_messages duo !! "room_a1b2c3d4" = Some log
      ∧ let message := ChatMessage.mk "m2" "room_a1b2c3d4" "u2"
                          (User.name (deref duo user)) "hi" 7 "text" in
        run.1 = Return (Some message)
        ∧ room_messages run.2
          = <["room_a1b2c3d4" := last_n 500 (log ++ [message])]> (room_messages duo)
        ∧ (length log < 500 →
           room_messages run.2
           = <["room_a1b2c3d4" := log ++ [message]]> (room_messages duo))
        ∧ heap run.2 = heap duo ∧ rooms run.2 = rooms duo
        ∧ users run.2 = users duo ∧ user_rooms run.2 = user_rooms duo.
Proof.
  assert (is_Some (rooms duo !! "room_a1b2c3d4")) as Hroom by (by eexists).
  assert (registered duo "u2") as Hreg.
  { exists "sid2", 1. split; [| reflexivity]. right. left. }
  split_and!; [done | done |].
  by apply (add_message_contract duo "room_a1b2c3d4" "u2" "hi" "m2" 7 reachable_duo).
Defined.

(** C8: a signaling event sent by a registered connection is relayed on a
    best-effort basis.  When no connection is registered for the target
    user id, the handler makes no call on the transport at all: nothing is
    delivered and no [error] event goes to the sender.  When there is one,
    the handler makes exactly one call: it emits the event of the same name,
    carrying the sender's user id and the payload, to the handle of the
    first connection registered for the target. *)
Theorem signaling_best_effort st sid user data target body :
  reachable st →
  dict_get sid (users st) = Some user →
  target_user_id data = Some target →
  signal_body data = Some body →
  let from_user_id := User.id (deref st user) in
  (¬ registered st target →
     webrtc_offer sid data st = []
     ∧ webrtc_answer sid data st = []
     ∧ webrtc_ice_candidate sid data st = [])
  ∧ (registered st target →
     ∃ target_sid target_user,
       find_session st target = Some (target_sid, target_user)
       ∧ dict_get target_sid (users st) = Some target_user
       ∧ User.id (deref st target_user) = target
       ∧ webrtc_offer sid data st
         = [Emit "webrtc_offer" (PSignal from_user_id "offer" body) target_sid None]
       ∧ webrtc_answer sid data st
         = [Emit "webrtc_answer" (PSignal from_user_id "answer" body) target_sid None]
       ∧ webrtc_ice_candidate sid data st
         = [Emit "webrtc_ice_candidate" (PSignal from_user_id "candidate" body)
              target_sid None]).
Proof.
  intros Hwf%reachable_wf Hsender Htarget Hbody from_user_id.
  unfold webrtc_offer, webrtc_answer, webrtc_ice_candidate, relay.
  rewrite Htarget, Hbody, Hsender.
  destruct (find_session st target) as [[tsid tuser]|] eqn:Hfind; simpl.
  - apply find_some in Hfind as [Hin Hid]. simpl in Hid.
    apply bool_decide_eq_true_1 in Hid. apply list_elem_of_In in Hin.
    split.
    + intros Hno. exfalso. apply Hno. by exists tsid, tuser.
    + intros _. exists tsid, tuser.
      pose proof (wf_sids _ Hwf) as Hs. rewrite Forall_forall in Hs.
      destruct (Hs _ Hin) as [Hne _]. simpl in Hne.
      rewrite bool_decide_eq_true_2 by done.
      split_and!; try done.
      apply dict_get_Some; [apply Hwf | done].
  - split; [done |].
    intros (tsid & tuser & Hin & Hid). exfalso.
    apply list_elem_of_In in Hin.
    pose proof (find_none _ _ Hfind _ Hin) as Hf. simpl in Hf.
    by rewrite bool_decide_eq_true_2 in Hf.
Qed.

Lemma signaling_best_effort_witness :
  let data := {| target_user_id := Some "u2"; signal_body := Some (JStr "sdp") |} in
  registered duo "u2"
  ∧ ∃ target_sid target_user,
      find_session duo "u2" = Some (target_sid, target_user)
      ∧ dict_get target_sid (users duo) = Some target_user
      ∧ User.id (deref duo target_user) = "u2"
      ∧ webrtc_offer "sid1" data duo
        = [Emit "webrtc_offer" (PSignal "u1" "offer" (JStr "sdp")) target_sid None]
      ∧ webrtc_answer "sid1" data duo
        = [Emit "webrtc_answer" (PSignal "u1" "answer" (JStr "sdp")) target_sid None]
      ∧ webrtc_ice_candidate "sid1" data duo
        = [Emit "webrtc_ice_candidate" (PSignal "u1" "candidate" (JStr "sdp"))
             target_sid None].
Proof.
  intros data.
  assert (registered duo "u2") as Hreg.
  { exists "sid2", 1. split; [| reflexivity]. right. left. }
  split; [done |].
  by apply (signaling_best_effort duo "sid1" 0 data "u2" (JStr "sdp") reachable_duo).
Defined.

(** Scenario F: an offer for a user id without a connection is dropped. *)
Example offer_to_nobody :
  webrtc_offer "sid1"
    {| target_user_id := Some "u9"; signal_body := Some (JStr "sdp") |} duo = [].
Proof. reflexivity. Qed.

(** C9: [disconnect] is idempotent.  For a handle that has no registry
    entry it returns normally, changes nothing and emits nothing.  From any
    reachable state it returns normally and removes the entry, so that
    running it again from the state it left returns normally, leaves that
    state as it is and emits nothing: no second [participant_left]. *)
Theorem disconnect_idempotent st sid msg_id now :
  reachable st →
  (dict_get sid (users st) = None →
   disconnect sid msg_id now st = (Return tt, st, []))
  ∧ ∃ st1 out1,
      disconnect sid msg_id now st = (Return tt, st1, out1)
      ∧ dict_get sid (users st1) = None
      ∧ ∀ msg_id' now', disconnect sid msg_id' now' st1 = (Return tt, st1, []).
Proof.
  intros Hwf%reachable_wf.
  assert (∀ s m n, dict_get sid (users s) = None →
                   disconnect sid m n s = (Return tt, s, [])) as Hnoop.
  { intros s m n Hnone. unfold disconnect. by rewrite Hnone. }
  split; [apply Hnoop |].
  destruct (dict_get sid (users st)) as [user|] eqn:Hget.
  2: { exists st, []. rewrite Hnoop by done. split_and!; [done | done |].
       intros m n. by apply Hnoop. }
  unfold disconnect. rewrite Hget.
  assert (∃ rid st', CM.leave_room (User.id (deref st user)) msg_id now st
                     = (Return rid, st') ∧ users st' = users st)
    as (rid & st' & -> & Husers).
  { destruct (user_rooms st !! User.id (deref st user)) as [room_id|] eqn:Hur.
    - destruct (leave_room_present _ msg_id now st room_id Hwf Hur)
        as (room & log & _ & _ & ->).
      eexists _, _. split; [done |]. unfold departed. by destruct (filter _ _).
    - rewrite leave_room_absent by done. by eexists _, _. }
  eexists _, _. split; [done |].
  assert (dict_get sid (users (set_users (dict_del sid) st')) = None) as Hgone.
  { simpl. rewrite Husers. apply dict_del_get, Hwf. }
  split; [done |]. intros m n. by apply Hnoop.
Qed.

Lemma disconnect_idempotent_witness :
  ∃ st1 out1,
    disconnect "sid1" "m2" 7 duo = (Return tt, st1, out1)
    ∧ dict_get "sid1" (users st1) = None
    ∧ ∀ msg_id' now', disconnect "sid1" msg_id' now' st1 = (Return tt, st1, []).
Proof. apply (disconnect_idempotent duo "sid1" "m2" 7 reachable_duo). Defined.

(** Scenario C: the host disconnects; the room goes on with the other
    member as host and is told once that the host left. *)
Example host_disconnects :
  let '(_, st1, out1) := disconnect "sid1" "m2" 7 duo in
  (Room.host_id <$> rooms st1 !! "room_a1b2c3d4") = Some "u2"
  ∧ (Room.participants <$> rooms st1 !! "room_a1b2c3d4") = Some [1]
  ∧ (λ c, match c with Emit e _ _ _ => e | _ => "" end) <$> out1
    = ["participant_left"; "participants_updated"].
Proof. by vm_compute. Qed.

(** What [add_message] does for the log bound: whenever it posts a message,
    the log it leaves has at most 500 entries, the posted message last. *)
Lemma add_message_bounds_log st room_id user_id text msg_id now message :
  reachable st →
  (CM.add_message room_id user_id text msg_id now st).1 = Return (Some message) →
  ∃ log',
    room_messages (exec (CM.add_message room_id user_id text msg_id now) st)
      !! room_id = Some log'
    ∧ length log' ≤ 500
    ∧ last log' = Some message.
Proof.
  intros Hwf%reachable_wf. unfold exec.
  destruct (rooms st !! room_id) as [room|] eqn:Hroom;
    [| by rewrite add_message_dropped by auto].
  destruct (find_session st user_id) as [[sid user]|] eqn:Hfind;
    [| by rewrite add_message_dropped by auto].
  destruct (wf_log _ Hwf room_id) as [log Hlog]; [by eexists |].
  rewrite (add_message_posted _ _ _ _ _ _ room sid user log) by done.
  simpl. intros [= <-]. eexists. rewrite lookup_insert_eq. split; [done |].
  split.
  - rewrite length_last_n. lia.
  - unfold last_n. rewrite drop_app_le by (rewrite length_app; simpl; lia).
    apply last_snoc.
Qed.

(** C4 fails on the code: only [add_message] cuts the log back to 500
    entries.  After Ann has sent 500 chat messages the log is full, and the
    notice that [join_room] appends for Bob makes it 501 entries long. *)
Theorem join_notice_overflows_log :
  reachable (chatter 500)
  ∧ (length <$> room_messages (chatter 500) !! "room_0000cafe") = Some 500
  ∧ let run := CM.join_room "room_0000cafe" 1 506 "m1" 506 (chatter 500) in
    run.1 = Return true
    ∧ (length <$> room_messages run.2 !! "room_0000cafe") = Some 501.
Proof. split; [apply reachable_chatter |]. by vm_compute. Qed.

(** Scenario E: of 501 chat messages the log keeps the second to the last,
    in the order in which they were sent. *)
Example oldest_message_evicted :
  (λ log : list ChatMessage.t, ChatMessage.timestamp <$> log)
    <$> room_messages (chatter 501) !! "room_0000cafe"
  = Some (seq 7 500).
Proof. by vm_compute. Qed.

(** C5 fails on the code.  [leave_room] never resets [room_id]: after Ann
    has opened a room and left it, her instance still names the deleted
    room although no room lists her.  And neither [create_room] nor
    [join_room] looks at the room a user is already in: after Bob has
    joined a second room, both rooms list him. *)
Theorem room_id_outlives_membership :
  (reachable left_alone
   ∧ User.room_id (deref left_alone 0) = Some "room_0000cafe"
   ∧ rooms left_alone = ∅
   ∧ rooms_listing left_alone "u1" = [])
  ∧ (reachable two_rooms
     ∧ User.room_id (deref two_rooms 1) = Some "room_0000beef"
     ∧ rooms_listing two_rooms "u2" = ["room_0000cafe"; "room_0000beef"]).
Proof.
  split; (split; [first [apply reachable_left_alone | apply reachable_two_rooms] |]);
    by vm_compute.
Qed.

(** * Beyond the claims: the rest of the collaboration server *)

(** ** Further properties of the manager *)

(** Within one room no user id occurs twice: [join_room] refuses a user
    whose id is already listed, and nothing else adds to the list. *)
Theorem members_unique st rid room :
  reachable st →
  rooms st !! rid = Some room →
  NoDup (ids st (Room.participants room)).
Proof. intros Hwf%reachable_wf Hroom. eapply ok_nodup, wf_rooms; done. Qed.

Lemma members_unique_witness :
  ∃ room, rooms duo !! "room_a1b2c3d4" = Some room
          ∧ NoDup (ids duo (Room.participants room)).
Proof.
  eexists. split; [reflexivity |].
  apply (members_unique duo "room_a1b2c3d4"); [apply reachable_duo | reflexivity].
Defined.

(** The user-room mapping is sound: the room it names for a user exists and
    lists that user. *)
Theorem user_rooms_sound st user_id room_id :
  reachable st →
  user_rooms st !! user_id = Some room_id →
  ∃ room, rooms st !! room_id = Some room
          ∧ user_id ∈ ids st (Room.participants room).
Proof. intros Hwf%reachable_wf Hur. by eapply wf_user_rooms. Qed.

Lemma user_rooms_sound_witness :
  ∃ room, rooms duo !! "room_a1b2c3d4" = Some room
          ∧ "u2" ∈ ids duo (Room.participants room).
Proof.
  apply (user_rooms_sound duo "u2" "room_a1b2c3d4");
    [apply reachable_duo | reflexivity].
Defined.

(** The four manager operations never raise from a reachable state: the
    [KeyError] that indexing or deleting [room_messages[room_id]] could
    raise does not occur. *)
Theorem manager_never_raises st :
  reachable st →
  (∀ data host hex8 now,
     ∃ room, (CM.create_room data host hex8 now st).1 = Return room)
  ∧ (∀ room_id user now_joined msg_id now_msg,
       ∃ ok, (CM.join_room room_id user now_joined msg_id now_msg st).1 = Return ok)
  ∧ (∀ user_id msg_id now,
       ∃ left, (CM.leave_room user_id msg_id now st).1 = Return left)
  ∧ (∀ room_id user_id text msg_id now,
       ∃ posted, (CM.add_message room_id user_id text msg_id now st).1 = Return posted).
Proof.
  intros Hwf%reachable_wf. split_and!.
  - intros. by eexists.
  - intros room_id user now_joined msg_id now_msg.
    destruct (join_room_cases room_id user now_joined msg_id now_msg st Hwf)
      as [-> | (room & log & _ & _ & _ & _ & ->)]; by eexists.
  - intros user_id msg_id now.
    destruct (user_rooms st !! user_id) as [room_id|] eqn:Hur.
    + destruct (leave_room_present user_id msg_id now st room_id Hwf Hur)
        as (room & log & _ & _ & ->). by eexists.
    + rewrite leave_room_absent by done. by eexists.
  - intros room_id user_id text msg_id now.
    destruct (rooms st !! room_id) as [room|] eqn:Hroom;
      [| rewrite add_message_dropped by auto; by eexists].
    destruct (find_session st user_id) as [[sid user]|] eqn:Hfind;
      [| rewrite add_message_dropped by auto; by eexists].
    destruct (wf_log _ Hwf room_id) as [log Hlog]; [by eexists |].
    rewrite (add_message_posted _ _ _ _ _ _ room sid user log) by done.
    by eexists.
Qed.

Lemma manager_never_raises_witness :
  ∃ left, (CM.leave_room "u1" "m2" 7 duo).1 = Return left.
Proof.
  apply (proj1 (proj2 (proj2 (manager_never_raises duo reachable_duo)))).
Defined.

(** A log belongs to a room: [room_messages] has an entry exactly for the
    ids that [rooms] has one for. *)
Theorem logs_match_rooms st room_id :
  reachable st →
  is_Some (room_messages st !! room_id) ↔ is_Some (rooms st !! room_id).
Proof.
  intros Hreach. split; [| by apply wf_log, reachable_wf].
  revert room_id. induction Hreach as [|st st' Hreach IH Hstep]; intros rid.
  { simpl. rewrite lookup_empty. by intros []. }
  pose proof (reachable_wf _ Hreach) as Hwf.
  destruct Hstep as [u st|sid r st|sid st|r b st|r b st
                     |data host hex8 now st Hhost Hfresh
                     |room_id user nj mid nm st Huser
                     |uid mid now st|room_id uid text mid now st];
    try (by apply IH).
  - unfold exec, CM.create_room, bind, get, ret, modify, setattr. simpl.
    rewrite !lookup_insert. case_decide; [eauto | apply IH].
  - unfold exec.
    destruct (join_room_cases room_id user nj mid nm st Hwf)
      as [-> | (room & log & _ & _ & _ & _ & ->)]; [apply IH |].
    simpl. rewrite !lookup_insert. case_decide; [eauto | apply IH].
  - unfold exec.
    destruct (user_rooms st !! uid) as [room_id|] eqn:Hur;
      [| rewrite leave_room_absent by done; apply IH].
    destruct (leave_room_present uid mid now st room_id Hwf Hur)
      as (room & log & _ & _ & ->).
    simpl. unfold departed. destruct (filter _ _); simpl.
    + rewrite !lookup_delete. case_decide; [by intros [] | apply IH].
    + rewrite !lookup_insert. case_decide; [eauto | apply IH].
  - unfold exec.
    destruct (rooms st !! room_id) as [room|] eqn:Hroom;
      [| rewrite add_message_dropped by auto; apply IH].
    destruct (find_session st uid) as [[sid user]|] eqn:Hfind;
      [| rewrite add_message_dropped by auto; apply IH].
    destruct (wf_log _ Hwf room_id) as [log Hlog]; [by eexists |].
    rewrite (add_message_posted _ _ _ _ _ _ room sid user log) by done.
    simpl. rewrite lookup_insert. case_decide as Hd; [| apply IH].
    subst. by rewrite Hroom.
Qed.

Lemma logs_match_rooms_witness :
  is_Some (room_messages duo !! "room_a1b2c3d4")
  ↔ is_Some (rooms duo !! "room_a1b2c3d4").
Proof. apply (logs_match_rooms duo "room_a1b2c3d4" reachable_duo). Defined.

(** A user who has just joined a room cannot join it again: the second
    [join_room] returns [False] and changes nothing. *)
Theorem join_room_twice st st' room_id user now_joined msg_id now_msg :
  CM.join_room room_id user now_joined msg_id now_msg st = (Return true, st') →
  ∀ now_joined' msg_id' now_msg',
    CM.join_room room_id user now_joined' msg_id' now_msg' st' = (Return false, st').
Proof.
  intros Hrun now_joined' msg_id' now_msg'.
  unfold CM.join_room, bind, get in Hrun. simpl in Hrun.
  destruct (rooms st !! room_id) as [room|] eqn:Hroom; [| done].
  case_decide as Hfull; [done |]. case_decide as Hin; [done |].
  unfold setattr, append_message, modify, bind, get, ret, raise in Hrun.
  simpl in Hrun.
  destruct (room_messages st !! room_id) as [log|]; [| done].
  simpl in Hrun. injection Hrun as <-.
  apply join_room_refused. intros room'. simpl.
  rewrite lookup_alter, decide_True, Hroom by done. simpl.
  intros [= <-]. right. simpl.
  unfold ids, ids_of. rewrite fmap_app. apply elem_of_app. right. left.
Qed.

Lemma join_room_twice_witness :
  CM.join_room "room_a1b2c3d4" 1 8 "m9" 8 duo = (Return false, duo).
Proof. by apply (join_room_twice solo duo "room_a1b2c3d4" 1 6 "m1" 6). Defined.

(** Leaving is idempotent: right after [leave_room] for a user, a second
    [leave_room] for that user returns [None] and changes nothing. *)
Theorem leave_room_twice st user_id msg_id now :
  reachable st →
  ∀ msg_id' now',
    CM.leave_room user_id msg_id' now' (exec (CM.leave_room user_id msg_id now) st)
    = (Return None, exec (CM.leave_room user_id msg_id now) st).
Proof.
  intros Hwf%reachable_wf msg_id' now'. apply leave_room_absent. unfold exec.
  destruct (user_rooms st !! user_id) as [room_id|] eqn:Hur.
  - destruct (leave_room_present user_id msg_id now st room_id Hwf Hur)
      as (room & log & _ & _ & ->).
    simpl. unfold departed. destruct (filter _ _); simpl; apply lookup_delete_eq.
  - by rewrite leave_room_absent.
Qed.

Lemma leave_room_twice_witness :
  CM.leave_room "u2" "m3" 8 (exec (CM.leave_room "u2" "m2" 7) duo)
  = (Return None, exec (CM.leave_room "u2" "m2" 7) duo).
Proof. apply (leave_room_twice duo "u2" "m2" 7 reachable_duo). Defined.

(** Teardown: when the last participant leaves, the room is gone from every
    entry point: [join_room] with its id returns [False] without changing
    anything, both routes answer 404, and [get_room_info] reports that the
    room is not found. *)
Theorem teardown st user_id room_id room msg_id now :
  reachable st →
  user_rooms st !! user_id = Some room_id →
  rooms st !! room_id = Some room →
  ids st (Room.participants room) = [user_id] →
  let st' := exec (CM.leave_room user_id msg_id now) st in
  rooms st' !! room_id = None
  ∧ room_messages st' !! room_id = None
  ∧ (∀ user now_joined msg_id' now_msg,
       CM.join_room room_id user now_joined msg_id' now_msg st' = (Return false, st'))
  ∧ get_room room_id st' = HTTPException 404 "Room not found"
  ∧ (∀ limit, get_room_messages room_id limit st' = HTTPException 404 "Room not found")
  ∧ (∀ sid, get_room_info sid (Some room_id) st'
            = [Reply "error" (RError "Room not found") sid None]).
Proof.
  intros Hwf%reachable_wf Hur Hroom Hids st'.
  assert (rooms st' !! room_id = None ∧ room_messages st' !! room_id = None)
    as [Hgone Hlog].
  { subst st'. unfold exec.
    destruct (leave_room_present user_id msg_id now st room_id Hwf Hur)
      as (room0 & log & Hroom0 & _ & ->).
    assert (room0 = room) as -> by congruence.
    simpl. unfold departed, deref.
    assert (filter (λ p, User.id (heap st !!! p) ≠ user_id) (Room.participants room)
            = []) as ->.
    { apply (fmap_nil_inv (λ p, User.id (heap st !!! p))).
      pose proof (ids_of_filter (heap st) (Room.participants room) user_id) as Hf.
      unfold ids in Hids. rewrite Hids, filter_cons, filter_nil in Hf.
      by rewrite decide_False in Hf by (by intros []). }
    simpl. by rewrite !lookup_delete_eq. }
  split_and!; try done.
  - intros. apply join_room_refused. intros r. by rewrite Hgone.
  - unfold get_room. by rewrite Hgone.
  - intros limit. unfold get_room_messages. by rewrite Hgone.
  - intros sid. unfold get_room_info. by rewrite Hgone.
Qed.

Lemma teardown_witness :
  let st' := exec (CM.leave_room "u1" "m1" 6) solo in
  rooms st' !! "room_a1b2c3d4" = None
  ∧ room_messages st' !! "room_a1b2c3d4" = None
  ∧ (∀ user now_joined msg_id' now_msg,
       CM.join_room "room_a1b2c3d4" user now_joined msg_id' now_msg st'
       = (Return false, st'))
  ∧ get_room "room_a1b2c3d4" st' = HTTPException 404 "Room not found"
  ∧ (∀ limit, get_room_messages "room_a1b2c3d4" limit st'
              = HTTPException 404 "Room not found")
  ∧ (∀ sid, get_room_info sid (Some "room_a1b2c3d4") st'
            = [Reply "error" (RError "Room not found") sid None]).
Proof.
  apply (teardown solo "u1" "room_a1b2c3d4"
           (Room.mk "room_a1b2c3d4" "standup" "" "u1" [0] 5 2 default_settings false)
           "m1" 6 reachable_solo); reflexivity.
Defined.

(** ** The message history route *)

(** With a positive [limit] the route returns the last [limit] messages of
    the log (all of them when there are fewer), oldest first, together with
    the length of the whole log. *)
Theorem history_keeps_latest st room_id limit log :
  is_Some (rooms st !! room_id) →
  room_messages st !! room_id = Some log →
  (1 ≤ limit)%Z →
  get_room_messages room_id limit st
  = Body (last_n (Z.to_nat limit) log, length log).
Proof.
  intros [room Hroom] Hlog Hlimit. unfold get_room_messages.
  rewrite Hroom, Hlog. simpl. do 2 f_equal.
  case_decide as Hlen.
  - unfold slice_from, last_n. rewrite decide_True by lia. f_equal. lia.
  - rewrite last_n_short; [done | lia].
Qed.

Lemma history_keeps_latest_witness :
  get_room_messages "room_0000cafe" 2 (chatter 3)
  = Body (last_n 2 (default [] (room_messages (chatter 3) !! "room_0000cafe")), 3).
Proof.
  apply (history_keeps_latest (chatter 3) "room_0000cafe" 2);
    [by eexists | reflexivity | lia].
Defined.

(** A [limit] of zero or below is not rejected.  The route then returns the
    log without its first [-limit] messages: the whole log for [limit=0],
    and nothing once [-limit] reaches the length of the log. *)
Theorem history_nonpositive_limit st room_id limit log :
  is_Some (rooms st !! room_id) →
  room_messages st !! room_id = Some log →
  (limit ≤ 0)%Z →
  get_room_messages room_id limit st
  = Body (drop (Z.to_nat (- limit)) log, length log).
Proof.
  intros [room Hroom] Hlog Hlimit. unfold get_room_messages.
  rewrite Hroom, Hlog. simpl. do 2 f_equal.
  case_decide as Hlen.
  - unfold slice_from. rewrite decide_False by lia.
    destruct (decide (- limit ≤ Z.of_nat (length log))%Z).
    + f_equal. lia.
    + rewrite !drop_ge; [done | lia | lia].
  - destruct log; [by rewrite drop_nil | simpl in Hlen; lia].
Qed.

Lemma history_nonpositive_limit_witness :
  get_room_messages "room_0000cafe" 0 (chatter 3)
  = Body (default [] (room_messages (chatter 3) !! "room_0000cafe"), 3).
Proof.
  apply (history_nonpositive_limit (chatter 3) "room_0000cafe" 0);
    [by eexists | reflexivity | lia].
Defined.

(** ** The handlers *)

(** [create_room] answers an unregistered connection with one
    ["User not registered"] error and changes nothing.  For a registered
    connection it never takes its failure branch: the connection enters the
    group of the new room and receives [room_created] with a room whose
    only participant is the creator, shown as host of that room. *)
Theorem create_room_handler st sid data hex8 now :
  reachable st →
  let room_id := "room_" +:+ hex8 in
  match dict_get sid (users st) with
  | None =>
      create_room sid data hex8 now st
      = (st, [Emit "error" (PError "User not registered") sid None])
  | Some user =>
      ∃ room creator,
        create_room sid data hex8 now st
        = (exec (CM.create_room data user hex8 now) st,
           [EnterRoom sid room_id;
            Emit "room_created" (PRoom room [creator] "success") sid None])
        ∧ Room.id room = room_id
        ∧ Room.participants room = [user]
        ∧ Room.host_id room = User.id creator
        ∧ User.id creator = User.id (deref st user)
        ∧ User.role creator = "host"
        ∧ User.room_id creator = Some room_id
  end.
Proof.
  intros Hreach room_id. unfold create_room.
  destruct (dict_get sid (users st)) as [user|] eqn:Hget; [| done].
  pose proof (registered_ref _ _ _ Hreach Hget) as Huser.
  eexists _, _. split; [reflexivity |]. simpl.
  unfold deref. simpl.
  rewrite !list_lookup_total_insert_eq by (by rewrite ?length_insert).
  by destruct (heap st !!! user).
Qed.

Lemma create_room_handler_witness :
  ∃ room creator,
    create_room "sid2" RoomData.empty "0000beef" 7 duo
    = (exec (CM.create_room RoomData.empty 1 "0000beef" 7) duo,
       [EnterRoom "sid2" "room_0000beef";
        Emit "room_created" (PRoom room [creator] "success") "sid2" None])
    ∧ Room.id room = "room_0000beef"
    ∧ Room.participants room = [1]
    ∧ Room.host_id room = User.id creator
    ∧ User.id creator = User.id (deref duo 1)
    ∧ User.role creator = "host"
    ∧ User.room_id creator = Some "room_0000beef".
Proof. apply (create_room_handler duo "sid2" RoomData.empty "0000beef" 7 reachable_duo). Defined.

(** When the manager refuses a join, or the connection is not registered,
    or the event has no [room_id], the [join_room] handler changes nothing
    and answers with exactly one [error] event, sent to the caller only. *)
Theorem join_room_handler_failure st sid data_room_id now_joined msg_id now_msg :
  reachable st →
  (∀ user room_id,
     dict_get sid (users st) = Some user → data_room_id = Some room_id →
     (CM.join_room room_id user now_joined msg_id now_msg st).1 ≠ Return true) →
  ∃ message,
    join_room sid data_room_id now_joined msg_id now_msg st
    = (st, [Emit "error" (PError message) sid None]).
Proof.
  intros Hwf%reachable_wf Hfail. unfold join_room.
  destruct (dict_get sid (users st)) as [user|]; [| by eexists].
  destruct data_room_id as [room_id|]; [| by eexists].
  specialize (Hfail user room_id eq_refl eq_refl).
  destruct (join_room_cases room_id user now_joined msg_id now_msg st Hwf)
    as [Hrun | (room & log & _ & _ & _ & _ & Hrun)]; rewrite Hrun in *.
  - by eexists.
  - done.
Qed.

Lemma join_room_handler_failure_witness :
  ∃ message,
    join_room "sid3" (Some "room_a1b2c3d4") 7 "m2" 7 duo
    = (duo, [Emit "error" (PError message) "sid3" None]).
Proof.
  apply (join_room_handler_failure duo "sid3" (Some "room_a1b2c3d4") 7 "m2" 7
           reachable_duo).
  intros user room_id [= <-] [= <-]. discriminate.
Defined.

(** When the manager accepts a join, the handler makes five calls: the
    connection enters the room's group, the joiner receives [room_joined],
    the others [participant_joined], the room [participants_updated], and
    the joiner [chat_history].  The history holds at most the last 50
    messages of the log and ends with the notice of this very join. *)
Theorem join_room_handler_success st sid user room_id now_joined msg_id now_msg :
  reachable st →
  dict_get sid (users st) = Some user →
  (CM.join_room room_id user now_joined msg_id now_msg st).1 = Return true →
  let st' := exec (CM.join_room room_id user now_joined msg_id now_msg) st in
  ∃ room history,
    rooms st' !! room_id = Some room
    ∧ join_room sid (Some room_id) now_joined msg_id now_msg st
      = (st',
         [EnterRoom sid room_id;
          Emit "room_joined" (PRoom room (asdict_participants st' room) "success")
            sid None;
          Emit "participant_joined" (PParticipantJoined (deref st' user) room_id)
            room_id (Some sid);
          Emit "participants_updated" (PParticipants (asdict_participants st' room))
            room_id None;
          Emit "chat_history" (PChatHistory history) sid None])
    ∧ last (Room.participants room) = Some user
    ∧ length history ≤ 50
    ∧ last history
      = Some (ChatMessage.mk msg_id room_id "system" "시스템"
                (User.name (deref st user) +:+ "님이 참여했습니다.") now_msg "system").
Proof.
  intros Hwf%reachable_wf Hget Hok st'. subst st'. unfold join_room, exec.
  rewrite Hget.
  destruct (join_room_cases room_id user now_joined msg_id now_msg st Hwf)
    as [Hrun | (room & log & Hroom & _ & _ & Hlog & Hrun)]; rewrite Hrun in *;
    [done |].
  simpl. rewrite !lookup_insert_eq. simpl.
  eexists _, _. split_and!; [done | done | | |]; simpl.
  - apply last_snoc.
  - rewrite length_last_n. lia.
  - unfold last_n. rewrite drop_app_le by (rewrite length_app; simpl; lia).
    apply last_snoc.
Qed.

Lemma join_room_handler_success_witness :
  let st' := exec (CM.join_room "room_a1b2c3d4" 1 6 "m1" 6) solo in
  ∃ room history,
    rooms st' !! "room_a1b2c3d4" = Some room
    ∧ join_room "sid2" (Some "room_a1b2c3d4") 6 "m1" 6 solo
      = (st',
         [EnterRoom "sid2" "room_a1b2c3d4";
          Emit "room_joined" (PRoom room (asdict_participants st' room) "success")
            "sid2" None;
          Emit "participant_joined" (PParticipantJoined (deref st' 1) "room_a1b2c3d4")
            "room_a1b2c3d4" (Some "sid2");
          Emit "participants_updated" (PParticipants (asdict_participants st' room))
            "room_a1b2c3d4" None;
          Emit "chat_history" (PChatHistory history) "sid2" None])
    ∧ last (Room.participants room) = Some 1
    ∧ length history ≤ 50
    ∧ last history
      = Some (ChatMessage.mk "m1" "room_a1b2c3d4" "system" "시스템"
                "Bob님이 참여했습니다." 6 "system").
Proof.
  apply (join_room_handler_success solo "sid2" 1 "room_a1b2c3d4" 6 "m1" 6
           reachable_solo); reflexivity.
Defined.

Ltac emit_cases Hin :=
  repeat (apply elem_of_cons in Hin as [Hin | Hin];
          [try discriminate; try (injection Hin as -> -> -> ->) |]);
  try (by apply elem_of_nil in Hin).

(** The participant list that [leave_room] and [disconnect] broadcast after
    a departure never shows the user who left, and the room's group is told
    of the departure only while the room still exists. *)
Theorem departure_snapshot st sid user msg_id now :
  reachable st →
  dict_get sid (users st) = Some user →
  let leaver := User.id (deref st user) in
  ∀ out, out = (leave_room sid msg_id now st).2
               ∨ out = (disconnect sid msg_id now st).2 →
  ∀ event data room skip,
    Emit event data room skip ∈ out →
    match data with
    | PParticipants snapshot =>
        is_Some (rooms (exec (CM.leave_room leaver msg_id now) st) !! room)
        ∧ ∀ u, u ∈ snapshot → User.id u ≠ leaver
    | PParticipantLeft user_id _ _ =>
        is_Some (rooms (exec (CM.leave_room leaver msg_id now) st) !! room)
        ∧ user_id = leaver
    | _ => True
    end.
Proof.
  intros Hwf%reachable_wf Hget leaver out Hout event data room skip.
  assert (∀ st1 r, heap st1 = heap st
                   ∨ (∃ p, heap st1 = <[p := User.set_role "host" (heap st !!! p)]> (heap st)) →
                   User.id (deref st1 r) = User.id (deref st r)) as Hsame.
  { intros st1 r [Hh | [p Hh]]; unfold deref; rewrite Hh; [done |].
    apply setattr_id. auto with heap. }
  unfold leave_room, disconnect, exec in *. rewrite Hget in Hout. fold leaver in Hout |- *.
  destruct (user_rooms st !! leaver) as [room_id|] eqn:Hur.
  2: { rewrite leave_room_absent in * by done. simpl in Hout.
       destruct Hout as [-> | ->]; by intros ?%elem_of_nil. }
  destruct (leave_room_present leaver msg_id now st room_id Hwf Hur)
    as (room0 & log & Hroom0 & _ & Hrun).
  rewrite Hrun in *. simpl in *. clear Hrun.
  unfold departed in *.
  destruct (filter _ _) as [|first rest] eqn:Hrest; simpl in *.
  - rewrite lookup_delete_eq in Hout.
    destruct (bool_decide (room_id ≠ "")); simpl in Hout;
      destruct Hout as [-> | ->]; intros Hin; emit_cases Hin; done.
  - rewrite lookup_insert_eq in Hout.
    set (st1 := {| heap := _; rooms := <[room_id := _]> (rooms st) |}) in *.
    assert (∀ r, User.id (deref st1 r) = User.id (deref st r)) as Hid.
    { intros r. apply Hsame. subst st1. simpl.
      destruct (bool_decide (Room.host_id room0 = leaver));
        [right; by exists first | by left]. }
    assert (∀ u, u ∈ deref st1 <$> (first :: rest) → User.id u ≠ leaver) as Hsnap.
    { intros u (p & -> & Hp)%list_elem_of_fmap. rewrite Hid.
      rewrite <- Hrest in Hp. by apply list_elem_of_filter in Hp as [? _]. }
    destruct (bool_decide (room_id ≠ "")); simpl in Hout;
      destruct Hout as [-> | ->]; intros Hin; emit_cases Hin; try done.
    all: (split; [rewrite lookup_insert_eq; by eexists |]);
      first [exact Hsnap | apply Hid].
Qed.

Lemma departure_snapshot_witness :
  is_Some (rooms (exec (CM.leave_room "u1" "m2" 7) duo) !! "room_a1b2c3d4")
  ∧ ∀ u, u ∈ deref (exec (CM.leave_room "u1" "m2" 7) duo) <$> [1] → User.id u ≠ "u1".
Proof.
  refine (departure_snapshot duo "sid1" 0 "m2" 7 reachable_duo eq_refl
            (leave_room "sid1" "m2" 7 duo).2 (or_introl eq_refl)
            "participants_updated"
            (PParticipants (deref (exec (CM.leave_room "u1" "m2" 7) duo) <$> [1]))
            "room_a1b2c3d4" None _).
  vm_compute. do 3 right. left.
Defined.

(** [send_message] does one of three things.  It answers the caller with a
    single [error] and changes nothing; or it drops the message silently,
    changing nothing (the room named by the sender's [room_id] no longer
    exists); or it posts: the room named by the sender's [room_id] receives
    one [new_message] carrying the sender's id and the text, and that
    message is now the last entry of the room's log, which holds at most
    500 entries. *)
Theorem send_message_outcome st sid data_message msg_id now :
  reachable st →
  let st' := (send_message sid data_message msg_id now st).1 in
  let out := (send_message sid data_message msg_id now st).2 in
  (st' = st ∧ ∃ message, out = [Emit "error" (PError message) sid None])
  ∨ (st' = st ∧ out = []
     ∧ ∃ user room_id, dict_get sid (users st) = Some user
                       ∧ User.room_id (deref st user) = Some room_id
                       ∧ rooms st !! room_id = None)
  ∨ (∃ user room_id text posted log',
       dict_get sid (users st) = Some user
       ∧ User.room_id (deref st user) = Some room_id
       ∧ data_message = Some text
       ∧ out = [Emit "new_message" (PNewMessage posted) room_id None]
       ∧ ChatMessage.room_id posted = room_id
       ∧ ChatMessage.user_id posted = User.id (deref st user)
       ∧ ChatMessage.message posted = text
       ∧ room_messages st' !! room_id = Some log'
       ∧ last log' = Some posted
       ∧ length log' ≤ 500).
Proof.
  intros Hreach st' out. subst st' out.
  pose proof (reachable_wf _ Hreach) as Hwf.
  unfold send_message.
  destruct (dict_get sid (users st)) as [user|] eqn:Hget;
    [| left; split; [done | by eexists]].
  destruct (User.room_id (deref st user)) as [room_id|] eqn:Hrid;
    [| left; split; [done | by eexists]].
  destruct (truthy (Some room_id)); [| left; split; [done | by eexists]].
  destruct data_message as [text|]; [| left; split; [done | by eexists]].
  destruct (rooms st !! room_id) as [room|] eqn:Hroom.
  2: { right. left. rewrite add_message_dropped by auto. simpl.
       split_and!; [done | done |]. by exists user, room_id. }
  assert (find_session st (User.id (deref st user)) ≠ None) as Hfound.
  { intros Hnone. apply dict_get_elem, list_elem_of_In in Hget.
    pose proof (find_none _ _ Hnone _ Hget) as Hf. simpl in Hf.
    by rewrite bool_decide_eq_true_2 in Hf. }
  destruct (find_session st (User.id (deref st user))) as [[sid' user']|] eqn:Hfind;
    [| done].
  destruct (wf_log _ Hwf room_id) as [log Hlog]; [by eexists |].
  rewrite (add_message_posted _ _ _ _ _ _ room sid' user' log) by done.
  right. right. simpl.
  eexists user, room_id, text, _, _. unfold deref in *. simpl. rewrite Hrid. simpl.
  rewrite lookup_insert_eq. split_and!; try done.
  - unfold last_n. rewrite drop_app_le by (rewrite length_app; simpl; lia).
    apply last_snoc.
  - rewrite length_last_n. lia.
Qed.

Lemma send_message_outcome_witness :
  let st' := (send_message "sid2" (Some "hi") "m2" 7 duo).1 in
  let out := (send_message "sid2" (Some "hi") "m2" 7 duo).2 in
  (st' = duo ∧ ∃ message, out = [Emit "error" (PError message) "sid2" None])
  ∨ (st' = duo ∧ out = []
     ∧ ∃ user room_id, dict_get "sid2" (users duo) = Some user
                       ∧ User.room_id (deref duo user) = Some room_id
                       ∧ rooms duo !! room_id = None)
  ∨ (∃ user room_id text posted log',
       dict_get "sid2" (users duo) = Some user
       ∧ User.room_id (deref duo user) = Some room_id
       ∧ Some "hi" = Some text
       ∧ out = [Emit "new_message" (PNewMessage posted) room_id None]
       ∧ ChatMessage.room_id posted = room_id
       ∧ ChatMessage.user_id posted = User.id (deref duo user)
       ∧ ChatMessage.message posted = text
       ∧ room_messages st' !! room_id = Some log'
       ∧ last log' = Some posted
       ∧ length log' ≤ 500).
Proof. apply (send_message_outcome duo "sid2" (Some "hi") "m2" 7 reachable_duo). Defined.

(** After the only member of a room has left it, that user's chat messages
    go nowhere: [send_message] emits nothing, not even an error, and
    changes nothing. *)
Example message_after_leaving_is_dropped :
  send_message "sid1" (Some "anyone?") "m2" 7 left_alone = (left_alone, []).
Proof. by vm_compute. Qed.

(** [get_room_info] always answers the caller, and nobody else, exactly
    once: with [room_info] when the room exists and with [error]
    otherwise. *)
Theorem get_room_info_answers_once st sid data_room_id :
  ∃ event data,
    get_room_info sid data_room_id st = [Reply event data sid None]
    ∧ (event = "room_info"
       ↔ ∃ room_id, data_room_id = Some room_id ∧ is_Some (rooms st !! room_id))
    ∧ (event = "error" ∨ event = "room_info").
Proof.
  unfold get_room_info. destruct data_room_id as [room_id|].
  - destruct (rooms st !! room_id) as [room|] eqn:Hroom.
    + eexists _, _. split_and!; [done | | by right].
      split; [intros _; exists room_id; by rewrite Hroom | done].
    + eexists _, _. split_and!; [done | | by left].
      split; [done |]. intros (r & [= <-] & Hr). rewrite Hroom in Hr. by destruct Hr.
  - eexists _, _. split_and!; [done | | by left].
    split; [done |]. by intros (r & ? & _).
Qed.

(** None of the four media handlers echoes to the sender or reports an
    error: every event they emit goes to the room named by the sender's
    [room_id], with the sender's own connection skipped. *)
Theorem media_notices_skip_sender st sid data_enabled out :
  out = (toggle_video sid data_enabled st).2
  ∨ out = (toggle_audio sid data_enabled st).2
  ∨ out = start_screen_share sid st
  ∨ out = stop_screen_share sid st →
  ∀ event data room skip,
    Reply event data room skip ∈ out →
    skip = Some sid
    ∧ event ≠ "error"
    ∧ ∃ user, dict_get sid (users st) = Some user
              ∧ User.room_id (deref st user) = Some room
              ∧ room ≠ "".
Proof.
  assert (∀ (h : list User.t) r f, (∀ u, User.room_id (f u) = User.room_id u) →
            User.room_id (<[r := f (h !!! r)]> h !!! r) = User.room_id (h !!! r))
    as Hkeep.
  { intros h r f Hf. rewrite lookup_total_setattr.
    case_decide; [apply Hf | done]. }
  intros Hout event data room skip.
  unfold toggle_video, toggle_audio, start_screen_share, stop_screen_share,
    toggle, screen_share in Hout.
  destruct (dict_get sid (users st)) as [user|];
    [| by destruct Hout as [-> | [-> | [-> | ->]]]; intros ?%elem_of_nil].
  destruct (User.room_id (deref st user)) as [room_id|] eqn:Hrid; simpl in Hout;
    [| by destruct Hout as [-> | [-> | [-> | ->]]]; intros ?%elem_of_nil].
  case_bool_decide as Hne; simpl in Hout;
    [| by destruct Hout as [-> | [-> | [-> | ->]]]; intros ?%elem_of_nil].
  unfold deref in *.
  destruct Hout as [-> | [-> | [-> | ->]]];
    try (destruct data_enabled; simpl; [| by intros ?%elem_of_nil]);
    unfold deref; simpl; rewrite ?Hkeep by (by intros []); rewrite ?Hrid; simpl;
    intros [[= -> -> -> ->] | ?%elem_of_nil]%elem_of_cons; try done;
    (split_and!; [done | done | by exists user]).
Qed.

Lemma media_notices_skip_sender_witness :
  Some "sid1" = Some "sid1"
  ∧ "screen_share_started" ≠ "error"
  ∧ ∃ user, dict_get "sid1" (users duo) = Some user
            ∧ User.room_id (deref duo user) = Some "room_a1b2c3d4"
            ∧ "room_a1b2c3d4" ≠ "".
Proof.
  apply (media_notices_skip_sender duo "sid1" None (start_screen_share "sid1" duo)
           (or_intror (or_intror (or_introl eq_refl)))
           "screen_share_started" (RScreenShare "u1" "Ann")).
  left.
Defined.

Lemma dict_get_set {V} (d : list (string * V)) k k' v :
  dict_get k' (dict_set k v d) = if decide (k = k') then Some v else dict_get k' d.
Proof.
  induction d as [|[k0 v0] d IH]; simpl.
  - by repeat case_decide.
  - repeat (case_decide; simpl; subst); try done; by rewrite ?decide_True, ?decide_False.
Qed.

Lemma dict_del_set {V} (d : list (string * V)) k v :
  dict_get k d = None → dict_del k (dict_set k v d) = d.
Proof.
  induction d as [|[k0 v0] d IH]; simpl.
  - by rewrite decide_True.
  - case_decide; [done |]. intros Hd. simpl. rewrite decide_False by done.
    by rewrite IH.
Qed.

Lemma setattr_commute (h : list User.t) r1 r2 f g :
  (∀ u, f (g u) = g (f u)) →
  <[r2 := g (<[r1 := f (h !!! r1)]> h !!! r2)]> (<[r1 := f (h !!! r1)]> h)
  = <[r1 := f (<[r2 := g (h !!! r2)]> h !!! r1)]> (<[r2 := g (h !!! r2)]> h).
Proof.
  intros Hfg. destruct (decide (r1 = r2)) as [<- | Hne].
  - destruct (decide (r1 < length h)).
    + rewrite !list_lookup_total_insert_eq, !list_insert_insert_eq by done.
      by rewrite Hfg.
    + by rewrite !list_insert_ge by (rewrite ?length_insert; lia).
  - rewrite !list_lookup_total_insert_ne by done.
    by rewrite list_insert_insert_ne.
Qed.

(** [join_user] with both required keys registers the connection: the
    handle now leads to a new instance built from the event, with no room
    and the role of a participant, so the user id is registered; the other
    handles, the existing instances, the rooms and the logs are as before,
    and the caller receives [user_registered].  When [user_id] or [name] is
    missing the caller receives one [error] and nothing changes. *)
Theorem join_user_registers st sid data now :
  let st' := (join_user sid data now st).1 in
  let out := (join_user sid data now st).2 in
  match jud_user_id data, jud_name data with
  | Some user_id, Some name =>
      ∃ user,
        dict_get sid (users st') = Some user
        ∧ deref st' user
          = User.mk user_id name (default "" (jud_email data)) sid None true true
              now "participant"
        ∧ registered st' user_id
        ∧ (∀ sid', sid' ≠ sid → dict_get sid' (users st') = dict_get sid' (users st))
        ∧ (∀ r, r < length (heap st) → deref st' r = deref st r)
        ∧ rooms st' = rooms st
        ∧ user_rooms st' = user_rooms st
        ∧ room_messages st' = room_messages st
        ∧ out = [Emit "user_registered" (PStatus "success") sid None]
  | _, _ =>
      st' = st ∧ out = [Emit "error" (PError "Failed to register user") sid None]
  end.
Proof.
  intros st' out. subst st' out. unfold join_user.
  destruct (jud_user_id data) as [user_id|], (jud_name data) as [name|]; try done.
  simpl. exists (length (heap st)).
  assert (deref
            (set_users (dict_set sid (length (heap st)))
               (set_heap (λ h, h ++ [User.new user_id name (default "" (jud_email data))
                                       sid now]) st))
            (length (heap st))
          = User.new user_id name (default "" (jud_email data)) sid now) as Hnew.
  { unfold deref. simpl. rewrite lookup_total_app_r by done.
    by rewrite Nat.sub_diag. }
  split_and!; try done.
  - simpl. by rewrite dict_get_set, decide_True.
  - exists sid, (length (heap st)). split; [| by rewrite Hnew].
    simpl. apply (dict_get_elem _ sid). by rewrite dict_get_set, decide_True.
  - intros sid' Hne. simpl. by rewrite dict_get_set, decide_False.
  - intros r Hr. unfold deref. simpl. by rewrite lookup_total_app_l.
Qed.

(** Registration and disconnection undo each other: when a fresh handle
    registers a user who is in no room and then disconnects, the registry
    is what it was, nothing is emitted, and all that remains is the unused
    instance. *)
Theorem register_then_disconnect st sid data now user_id name msg_id now' :
  dict_get sid (users st) = None →
  jud_user_id data = Some user_id →
  jud_name data = Some name →
  user_rooms st !! user_id = None →
  disconnect sid msg_id now' (join_user sid data now st).1
  = (Return tt,
     new_user (User.new user_id name (default "" (jud_email data)) sid now) st,
     []).
Proof.
  intros Hfresh Huid Hname Hur. unfold join_user. rewrite Huid, Hname. simpl.
  unfold disconnect. simpl. rewrite dict_get_set, decide_True by done.
  unfold deref. simpl. rewrite lookup_total_app_r, Nat.sub_diag by done. simpl.
  rewrite leave_room_absent by done. simpl.
  unfold set_users, new_user, set_heap. simpl. by rewrite dict_del_set.
Qed.

Lemma register_then_disconnect_witness :
  disconnect "sid9" "m2" 8
    (join_user "sid9" {| jud_user_id := Some "u9"; jud_name := Some "Eve";
                         jud_email := None |} 7 duo).1
  = (Return tt, new_user (User.new "u9" "Eve" "" "sid9" 7) duo, []).
Proof.
  by apply (register_then_disconnect duo "sid9"
              {| jud_user_id := Some "u9"; jud_name := Some "Eve"; jud_email := None |}
              7 "u9" "Eve" "m2" 8).
Defined.

Lemma setattr_proj {B} (proj : User.t → B) (h : list User.t) r f r' :
  (∀ u, proj (f u) = proj u) →
  proj (<[r := f (h !!! r)]> h !!! r') = proj (h !!! r').
Proof.
  intros Hf. rewrite lookup_total_setattr. case_decide as Hd; [| done].
  destruct Hd as [<- _]. apply Hf.
Qed.

(** [toggle] in closed form. *)
Lemma toggle_eval event set read sid enabled st :
  (∀ b u, User.id (set b u) = User.id u) →
  (∀ b u, User.room_id (set b u) = User.room_id u) →
  toggle event set read sid enabled st
  = match dict_get sid (users st), enabled with
    | Some user, Some e =>
        if truthy (User.room_id (heap st !!! user)) then
          (set_heap (λ h, <[user := set e (h !!! user)]> h) st,
           [Reply event
              (RToggled (User.id (heap st !!! user))
                 (read (<[user := set e (heap st !!! user)]> (heap st) !!! user)))
              (default "" (User.room_id (heap st !!! user))) (Some sid)])
        else (st, [])
    | _, _ => (st, [])
    end.
Proof.
  intros Hid Hroom. unfold toggle, deref.
  destruct (dict_get sid (users st)) as [user|]; [| done].
  destruct (truthy _), enabled as [e|]; try done.
  unfold exec, setattr, modify. simpl.
  by rewrite (setattr_proj User.id), (setattr_proj User.room_id).
Qed.

(** The two media toggles commute, whichever connections send them: both
    orders end in the same state, and each handler emits the same event as
    it would have alone. *)
Theorem toggles_commute st sid1 video sid2 audio :
  (toggle_audio sid2 audio (toggle_video sid1 video st).1).1
  = (toggle_video sid1 video (toggle_audio sid2 audio st).1).1
  ∧ (toggle_audio sid2 audio (toggle_video sid1 video st).1).2
    = (toggle_audio sid2 audio st).2
  ∧ (toggle_video sid1 video (toggle_audio sid2 audio st).1).2
    = (toggle_video sid1 video st).2.
Proof.
  unfold toggle_video, toggle_audio.
  rewrite !toggle_eval by (by intros ? []).
  destruct (dict_get sid1 (users st)) as [u1|] eqn:H1, video as [v|];
    destruct (dict_get sid2 (users st)) as [u2|] eqn:H2, audio as [a|];
    simpl; rewrite ?H1, ?H2; try done.
  all: try (destruct (truthy (User.room_id (heap st !!! u1))) eqn:T1; simpl;
            rewrite ?H1, ?H2, ?T1; simpl).
  all: try (destruct (truthy (User.room_id (heap st !!! u2))) eqn:T2; simpl;
            rewrite ?H1, ?H2, ?T1, ?T2; simpl).
  all: rewrite ?(setattr_proj User.room_id) by (by intros []);
    rewrite ?H1, ?H2, ?T1, ?T2; simpl; try done.
  rewrite ?(setattr_proj User.id), ?(setattr_proj User.room_id) by (by intros []).
  split_and!.
  - unfold set_heap. simpl. f_equal. apply setattr_commute. by intros [].
  - do 3 f_equal. rewrite !lookup_total_setattr, !length_insert.
    repeat case_decide; try done.
    match goal with H : _ ∧ _ |- _ => destruct H as [-> _] end.
    by destruct (heap st !!! u2).
  - do 3 f_equal. rewrite !lookup_total_setattr, !length_insert.
    repeat case_decide; try done.
    match goal with H : _ ∧ _ |- _ => destruct H as [-> _] end.
    by destruct (heap st !!! u1).
Qed.

(** A media toggle is idempotent: sending the same setting again changes
    nothing further and emits the same event. *)
Theorem toggle_twice st sid enabled :
  toggle_video sid enabled (toggle_video sid enabled st).1
  = toggle_video sid enabled st
  ∧ toggle_audio sid enabled (toggle_audio sid enabled st).1
    = toggle_audio sid enabled st.
Proof.
  unfold toggle_video, toggle_audio.
  rewrite !toggle_eval by (by intros ? []).
  destruct (dict_get sid (users st)) as [u|] eqn:H1, enabled as [e|];
    simpl; rewrite ?H1; try done.
  destruct (truthy (User.room_id (heap st !!! u))) eqn:T1; simpl;
    rewrite ?H1, ?T1; simpl; [| done].
  rewrite !(setattr_proj User.room_id), T1 by (by intros []).
  rewrite !(setattr_proj User.id) by (by intros []).
  unfold set_heap. simpl.
  assert (∀ f : User.t → User.t, (∀ x, f (f x) = f x) →
            <[u := f (<[u := f (heap st !!! u)]> (heap st) !!! u)]>
              (<[u := f (heap st !!! u)]> (heap st))
            = <[u := f (heap st !!! u)]> (heap st)) as Hidem.
  { intros f Hf. destruct (decide (u < length (heap st))).
    - by rewrite list_lookup_total_insert_eq, list_insert_insert_eq, Hf.
    - by rewrite !list_insert_ge by (rewrite ?length_insert; lia). }
  by rewrite !Hidem by (by intros []).
Qed.

Lemma toggle_reachable event set read sid enabled st :
  (set = User.set_is_video_enabled ∨ set = User.set_is_audio_enabled) →
  reachable st → reachable (toggle event set read sid enabled st).1.
Proof.
  intros Hset Hreach. unfold toggle.
  destruct (dict_get sid (users st)) as [user|]; [| done].
  destruct (truthy _), enabled as [e|]; try done. simpl.
  eapply reachable_step; [done |].
  destruct Hset as [-> | ->]; constructor.
Qed.

(** Every handler that writes to the manager leaves it in a reachable
    state, given what the transport guarantees: a non-empty handle for the
    registering connection and an unused identifier for a new room.  So all
    that holds of reachable states holds throughout a run of the server. *)
Theorem handlers_stay_reachable st :
  reachable st →
  (∀ sid data now, sid ≠ "" → reachable (join_user sid data now st).1)
  ∧ (∀ sid data hex8 now,
       rooms st !! ("room_" +:+ hex8) = None →
       reachable (create_room sid data hex8 now st).1)
  ∧ (∀ sid data_room_id now_joined msg_id now_msg,
       reachable (join_room sid data_room_id now_joined msg_id now_msg st).1)
  ∧ (∀ sid msg_id now, reachable (leave_room sid msg_id now st).1)
  ∧ (∀ sid data_message msg_id now,
       reachable (send_message sid data_message msg_id now st).1)
  ∧ (∀ sid msg_id now, reachable (disconnect sid msg_id now st).1.2)
  ∧ (∀ sid data_enabled, reachable (toggle_video sid data_enabled st).1)
  ∧ (∀ sid data_enabled, reachable (toggle_audio sid data_enabled st).1).
Proof.
  intros Hreach. split_and!; intros.
  - by apply join_user_reachable.
  - by apply create_room_reachable.
  - by apply join_room_reachable.
  - by apply leave_room_reachable.
  - by apply send_message_reachable.
  - by apply disconnect_reachable.
  - apply toggle_reachable; auto.
  - apply toggle_reachable; auto.
Qed.

Lemma handlers_stay_reachable_witness :
  reachable (disconnect "sid1" "m2" 7 duo).1.2.
Proof.
  apply (proj1 (proj2 (proj2 (proj2 (proj2 (proj2
           (handlers_stay_reachable duo reachable_duo))))))).
Defined.

(** When somebody other than the host leaves, the room keeps its host: its
    [host_id] and every instance, roles included, are as before, and its
    participants are the former ones without the leaver, in their order. *)
Theorem non_host_leaves st user_id room_id room msg_id now :
  reachable st →
  user_rooms st !! user_id = Some room_id →
  rooms st !! room_id = Some room →
  Room.host_id room ≠ user_id →
  let st' := exec (CM.leave_room user_id msg_id now) st in
  heap st' = heap st
  ∧ rooms st' !! room_id
    = Some (Room.set_participants
              (filter (λ p, User.id (deref st p) ≠ user_id) (Room.participants room))
              room)
  ∧ Room.host_id room
    ∈ ids st' (filter (λ p, User.id (deref st p) ≠ user_id) (Room.participants room)).
Proof.
  intros Hwf%reachable_wf Hur Hroom Hhost st'. subst st'. unfold exec.
  destruct (leave_room_present user_id msg_id now st room_id Hwf Hur)
    as (room0 & log & Hroom0 & _ & ->).
  assert (room0 = room) as -> by congruence.
  simpl. unfold departed.
  destruct (wf_rooms _ Hwf _ _ Hroom) as [_ (p & ps & Hps & Hid & _) _ _].
  rewrite Hps, filter_cons, decide_True by (unfold deref; congruence).
  rewrite bool_decide_eq_false_2 by done. simpl.
  rewrite lookup_insert_eq. split_and!; [done | by destruct room |].
  unfold ids, ids_of. simpl. rewrite <- Hid. left.
Qed.

Lemma non_host_leaves_witness :
  let st' := exec (CM.leave_room "u2" "m2" 7) duo in
  heap st' = heap duo
  ∧ rooms st' !! "room_a1b2c3d4"
    = Some (Room.mk "room_a1b2c3d4" "standup" "" "u1" [0] 5 2 default_settings false)
  ∧ "u1" ∈ ids st' [0].
Proof.
  apply (non_host_leaves duo "u2" "room_a1b2c3d4"
           (Room.mk "room_a1b2c3d4" "standup" "" "u1" [0; 1] 5 2 default_settings false)
           "m2" 7 reachable_duo); [reflexivity | reflexivity | discriminate].
Defined.

(** The room listing has one entry per room, and no entry shows an empty
    room or one filled beyond [max(1, max_participants)]. *)
Theorem get_rooms_entries st :
  reachable st →
  length (get_rooms st) = size (rooms st)
  ∧ ∀ entry, entry ∈ get_rooms st →
      1 ≤ participant_count entry
      ∧ (Z.of_nat (participant_count entry) ≤ Z.max 1 (rs_max_participants entry))%Z.
Proof.
  intros Hwf%reachable_wf. unfold get_rooms. split.
  - by rewrite !length_fmap, length_map_to_list.
  - intros entry (room & -> & ([rid room'] & Heq & Hin)%list_elem_of_fmap)%list_elem_of_fmap.
    simpl in Heq. subst room'. apply elem_of_map_to_list in Hin.
    destruct (wf_rooms _ Hwf _ _ Hin) as [_ (p & ps & Hps & _) _ Hcap].
    simpl. split; [rewrite Hps; simpl; lia | done].
Qed.

Lemma get_rooms_entries_witness :
  length (get_rooms duo) = size (rooms duo)
  ∧ ∀ entry, entry ∈ get_rooms duo →
      1 ≤ participant_count entry
      ∧ (Z.of_nat (participant_count entry) ≤ Z.max 1 (rs_max_participants entry))%Z.
Proof. apply (get_rooms_entries duo reachable_duo). Defined.

Lemma add_message_bounds_log_witness :
  ∃ log',
    room_messages (exec (CM.add_message "room_0000cafe" "u1" "hello" "chat" 506)
                     (chatter 500)) !! "room_0000cafe" = Some log'
    ∧ length log' ≤ 500
    ∧ last log' = Some (ChatMessage.mk "chat" "room_0000cafe" "u1" "Ann" "hello" 506 "text").
Proof.
  apply (add_message_bounds_log (chatter 500) "room_0000cafe" "u1" "hello" "chat" 506).
  - apply reachable_chatter.
  - by vm_compute.
Defined.

(** * Runs without a second membership, and where it shows *)

Lemma in_joining_order_ext h h' ps :
  (∀ p, p ∈ ps → User.joined_at (h' !!! p) = User.joined_at (h !!! p)) →
  in_joining_order h ps → in_joining_order h' ps.
Proof.
  induction ps as [|p ps IH]; simpl; [done |].
  intros Heq [Hp Hps]. split.
  - rewrite Forall_forall in Hp |- *. intros q Hq.
    rewrite !Heq by (by constructor). auto.
  - apply IH; [| done]. intros q Hq. apply Heq. by right.
Qed.

Lemma in_joining_order_filter h (P : ref → Prop) `{∀ p, Decision (P p)} ps :
  in_joining_order h ps → in_joining_order h (filter P ps).
Proof.
  induction ps as [|p ps IH]; simpl; [done |].
  intros [Hp Hps]. rewrite filter_cons. case_decide; simpl; [| auto].
  split; [| auto].
  rewrite Forall_forall in Hp |- *. intros q [_ Hq]%list_elem_of_filter. auto.
Qed.

Lemma in_joining_order_snoc h ps u :
  in_joining_order h ps →
  Forall (λ p, User.joined_at (h !!! p) ≤ User.joined_at (h !!! u)) ps →
  in_joining_order h (ps ++ [u]).
Proof.
  induction ps as [|p ps IH]; simpl; [done |].
  intros [Hp Hps] [Hpu Hrest]%Forall_cons. split; [| auto].
  apply Forall_app. split; [done |]. by constructor.
Qed.

Lemma joined_at_bound (h : list User.t) t r :
  Forall (λ u, User.joined_at u ≤ t) h → User.joined_at (h !!! r) ≤ t.
Proof.
  intros Hall. rewrite list_lookup_total_alt.
  destruct (h !! r) as [u|] eqn:Hr; simpl; [| lia].
  rewrite Forall_forall in Hall. apply Hall. by eapply list_elem_of_lookup_2.
Qed.

Lemma tidy_setattr t r f st :
  keeps_identity f → (∀ u, User.joined_at (f u) = User.joined_at u) →
  wf st → tidy t st → tidy t (exec (setattr r f) st).
Proof.
  intros Hf Hj Hwf [Htime Horder Hmap]. unfold exec, setattr, modify. simpl.
  assert (heap_ext (heap st) (<[r := f (heap st !!! r)]> (heap st))) as Hext
    by auto with heap.
  split; simpl.
  - apply Forall_insert; [done |]. rewrite Hj. by apply joined_at_bound.
  - intros rid room Hroom. eapply in_joining_order_ext; [| by eapply Horder].
    intros p _. by apply (setattr_proj User.joined_at).
  - intros rid room uid Hroom. unfold ids. simpl.
    rewrite (ids_of_ext (heap st)); [by apply Hmap | done |].
    apply (ok_refs _ _ (wf_rooms _ Hwf _ _ Hroom)).
Qed.

Lemma not_listed_ref st user rid room :
  ¬ listed st (User.id (deref st user)) →
  rooms st !! rid = Some room → user ∉ Room.participants room.
Proof.
  intros Hno Hroom Hin. apply Hno. exists rid, room. split; [done |].
  apply elem_of_ids_of. by exists user.
Qed.

Lemma orderly_inv t st : orderly t st → reachable st ∧ tidy t st.
Proof.
  induction 1 as [|t t' st _ [Hreach Htidy] Hle
                  |t u st _ [Hreach Htidy] Hu
                  |t sid r st _ [Hreach Htidy] Hsid Hr
                  |t sid st _ [Hreach Htidy]
                  |t r b st _ [Hreach Htidy]
                  |t r b st _ [Hreach Htidy]
                  |t data host hex8 now st _ [Hreach Htidy] Hhost Hfresh Hno
                  |t room_id user msg_id now_msg st _ [Hreach Htidy] Huser Hno
                  |t user_id msg_id now st _ [Hreach Htidy]
                  |t room_id user_id text msg_id now st _ [Hreach Htidy]].
  - split; [constructor |]. split; simpl; [constructor | |];
      intros rid room; by rewrite lookup_empty.
  - split; [done |]. destruct Htidy as [Htime Horder Hmap]. split; [| done | done].
    eapply Forall_impl; [done |]. simpl. intros. lia.
  - split; [eapply reachable_step; [done | constructor] |].
    pose proof (reachable_wf _ Hreach) as Hwf.
    destruct Htidy as [Htime Horder Hmap]. split; simpl.
    + apply Forall_app. split; [done | by constructor].
    + intros rid room Hroom. eapply in_joining_order_ext; [| by eapply Horder].
      intros p Hp. rewrite lookup_total_app_l; [done |].
      pose proof (ok_refs _ _ (wf_rooms _ Hwf _ _ Hroom)) as Hrefs.
      rewrite Forall_forall in Hrefs. auto.
    + intros rid room uid Hroom. unfold ids. simpl.
      rewrite (ids_of_ext (heap st)); [by apply Hmap | apply heap_ext_alloc |].
      apply (ok_refs _ _ (wf_rooms _ Hwf _ _ Hroom)).
  - split; [eapply reachable_step; [done | by constructor] |].
    by destruct Htidy.
  - split; [eapply reachable_step; [done | by constructor] |].
    by destruct Htidy.
  - split; [eapply reachable_step; [done | by constructor] |].
    apply tidy_setattr; [auto with heap | by intros [] | by apply reachable_wf | done].
  - split; [eapply reachable_step; [done | by constructor] |].
    apply tidy_setattr; [auto with heap | by intros [] | by apply reachable_wf | done].
  - split; [by apply reachable_create |].
    pose proof (reachable_wf _ Hreach) as Hwf.
    destruct Htidy as [Htime Horder Hmap].
    unfold exec, CM.create_room, bind, get, ret, modify, setattr. simpl.
    unfold set_heap, set_rooms, set_user_rooms, set_room_messages, deref. simpl.
    set (h1 := <[host := _]> (heap st)).
    set (h2 := <[host := _]> h1).
    assert (heap_ext (heap st) h2) as E2.
    { eapply (heap_ext_trans _ h1); [subst h1 | subst h2]; auto with heap. }
    assert (∀ p, User.joined_at (h2 !!! p) = User.joined_at (heap st !!! p)) as Hj.
    { intros p. subst h2 h1.
      by rewrite !(setattr_proj User.joined_at) by (by intros []). }
    split; simpl.
    + apply Forall_forall. intros u Hu.
      apply list_elem_of_lookup in Hu as [i Hi].
      assert (u = h2 !!! i) as -> by (by rewrite list_lookup_total_alt, Hi).
      rewrite Hj. by apply joined_at_bound.
    + intros rid room. rewrite lookup_insert. case_decide; [intros [= <-] |].
      * simpl. split; [constructor | done].
      * intros Hroom. eapply in_joining_order_ext; [| by eapply Horder]. auto.
    + intros rid room uid. unfold ids. simpl.
      rewrite lookup_insert. case_decide as Hr; [intros [= <-] |].
      * unfold ids_of. simpl. intros ->%list_elem_of_singleton.
        by rewrite lookup_insert_eq, Hr.
      * intros Hroom Hin.
        rewrite (ids_of_ext (heap st)) in Hin;
          [| done | apply (ok_refs _ _ (wf_rooms _ Hwf _ _ Hroom))].
        rewrite lookup_insert_ne; [by eapply Hmap |].
        intros Heq. apply Hno. exists rid, room. split; [done |].
        unfold deref. rewrite <- (ext_id _ _ E2 host Hhost). by rewrite Heq.
  - split; [by apply reachable_join |].
    pose proof (reachable_wf _ Hreach) as Hwf.
    unfold exec.
    destruct (join_room_cases room_id user t msg_id now_msg st Hwf)
      as [-> | (room & log & Hroom & _ & Hnew & _ & ->)]; [done |].
    destruct Htidy as [Htime Horder Hmap]. simpl. unfold joined.
    set (h1 := <[user := _]> (heap st)).
    set (h2 := <[user := _]> h1).
    assert (heap_ext (heap st) h2) as E2.
    { eapply (heap_ext_trans _ h1); [subst h1 | subst h2]; auto with heap. }
    assert (h2 !!! user = User.set_joined_at t
                            (User.set_room_id (Some room_id) (heap st !!! user)))
      as Huser'.
    { subst h2 h1. by rewrite !list_lookup_total_insert_eq by
        (by rewrite ?length_insert). }
    assert (∀ p, p ≠ user → h2 !!! p = heap st !!! p) as Hother.
    { intros p Hp. subst h2 h1. by rewrite !list_lookup_total_insert_ne. }
    assert (user ∉ Room.participants room) as Hfresh
      by (by eapply not_listed_ref).
    split; simpl.
    + subst h2 h1. repeat apply Forall_insert; try done.
      all: simpl; try lia; by apply joined_at_bound.
    + intros rid room'. rewrite lookup_insert. case_decide; [intros [= <-] |].
      * simpl. apply in_joining_order_snoc.
        -- eapply in_joining_order_ext; [| by eapply Horder].
           intros p Hp. rewrite Hother; [done |]. by intros ->.
        -- apply Forall_forall. intros p Hp.
           rewrite Huser', Hother by (by intros ->). simpl.
           by apply joined_at_bound.
      * intros Hroom'. eapply in_joining_order_ext; [| by eapply Horder].
        intros p Hp. rewrite Hother; [done |]. intros ->.
        by eapply (not_listed_ref st user rid room').
    + intros rid room' uid. unfold ids. simpl.
      rewrite lookup_insert. case_decide as Hr; [intros [= <-] |].
      * simpl. subst rid. unfold ids_of. rewrite fmap_app.
        intros [Hin | Hin]%elem_of_app.
        -- fold (ids_of h2 (Room.participants room)) in Hin.
           rewrite (ids_of_ext (heap st)) in Hin;
             [| done | apply (ok_refs _ _ (wf_rooms _ Hwf _ _ Hroom))].
           rewrite lookup_insert. case_decide; [done |]. by eapply Hmap.
        -- apply list_elem_of_singleton in Hin as ->.
           rewrite (ext_id _ _ E2) by done. apply lookup_insert_eq.
      * intros Hroom' Hin.
        rewrite (ids_of_ext (heap st)) in Hin;
          [| done | apply (ok_refs _ _ (wf_rooms _ Hwf _ _ Hroom'))].
        rewrite lookup_insert_ne; [by eapply Hmap |].
        intros <-. apply Hno. by exists rid, room'.
  - split; [by apply reachable_leave |].
    pose proof (reachable_wf _ Hreach) as Hwf.
    unfold exec.
    destruct (user_rooms st !! user_id) as [room_id|] eqn:Hur;
      [| by rewrite leave_room_absent].
    destruct (leave_room_present user_id msg_id now st room_id Hwf Hur)
      as (room & log & Hroom & _ & ->).
    destruct Htidy as [Htime Horder Hmap]. simpl. unfold departed, deref.
    assert (∀ rid room' uid, rid ≠ room_id → rooms st !! rid = Some room' →
              uid ∈ ids st (Room.participants room') →
              delete user_id (user_rooms st) !! uid = Some rid) as Hothers.
    { intros rid room' uid Hne Hroom' Hin.
      rewrite lookup_delete_ne; [by eapply Hmap |].
      intros <-. apply Hne. pose proof (Hmap _ _ _ Hroom' Hin). congruence. }
    destruct (filter _ _) as [|first rest] eqn:Hrest.
    + split; simpl; [done | |].
      * intros rid room'. rewrite lookup_delete. case_decide; [done |]. apply Horder.
      * intros rid room' uid. rewrite lookup_delete. case_decide; [done |].
        intros. by eapply Hothers.
    + set (h' := if bool_decide (Room.host_id room = user_id) then _ else _).
      assert (heap_ext (heap st) h') as Hext.
      { subst h'. case_bool_decide; auto with heap. }
      assert (∀ p, User.joined_at (h' !!! p) = User.joined_at (heap st !!! p)) as Hj.
      { intros p. subst h'. case_bool_decide; [| done].
        by rewrite (setattr_proj User.joined_at) by (by intros []). }
      split; simpl.
      * apply Forall_forall. intros u Hu.
        apply list_elem_of_lookup in Hu as [i Hi].
        assert (u = h' !!! i) as -> by (by rewrite list_lookup_total_alt, Hi).
        rewrite Hj. by apply joined_at_bound.
      * intros rid room'. rewrite lookup_insert. case_decide; [intros [= <-] |].
        -- cbn [Room.participants Room.set_host_id Room.set_participants].
           rewrite <- Hrest.
           eapply in_joining_order_ext; [intros; apply Hj |].
           apply in_joining_order_filter. by eapply Horder.
        -- intros Hroom'. eapply in_joining_order_ext; [intros; apply Hj |].
           by eapply Horder.
      * intros rid room' uid. unfold ids. simpl.
        rewrite lookup_insert. case_decide as Hr; [intros [= <-] |].
        -- cbn [Room.participants Room.set_host_id Room.set_participants].
           subst rid. intros Hin.
           assert (Forall (λ p, p < length (heap st)) (first :: rest)) as Hrefs.
           { rewrite <- Hrest. apply Forall_forall.
             intros q [_ Hq]%list_elem_of_filter. revert q Hq.
             apply Forall_forall, (ok_refs _ _ (wf_rooms _ Hwf _ _ Hroom)). }
           rewrite (ids_of_ext (heap st)), <- Hrest, ids_of_filter in Hin by done.
           apply list_elem_of_filter in Hin as [Hne Hin].
           rewrite lookup_delete_ne by done. by eapply Hmap.
        -- intros Hroom' Hin.
           rewrite (ids_of_ext (heap st)) in Hin;
             [| done | apply (ok_refs _ _ (wf_rooms _ Hwf _ _ Hroom'))].
           by eapply Hothers.
  - split; [by apply reachable_add |].
    pose proof (reachable_wf _ Hreach) as Hwf.
    unfold exec.
    destruct (rooms st !! room_id) as [room|] eqn:Hroom;
      [| by rewrite add_message_dropped by auto].
    destruct (find_session st user_id) as [[sid user]|] eqn:Hfind;
      [| by rewrite add_message_dropped by auto].
    destruct (wf_log _ Hwf room_id) as [log Hlog]; [by eexists |].
    rewrite (add_message_posted _ _ _ _ _ _ room sid user log) by done.
    by destruct Htidy.
Qed.



(** On an orderly run the user-room mapping has an entry for exactly the
    users that some room lists. *)
Theorem orderly_listed_mapped t st user_id :
  orderly t st → listed st user_id ↔ is_Some (user_rooms st !! user_id).
Proof.
  intros [Hreach [_ _ Hmap]]%orderly_inv. split.
  - intros (rid & room & Hroom & Hin). exists rid. by eapply Hmap.
  - intros [rid Hur].
    destruct (wf_user_rooms _ (reachable_wf _ Hreach) _ _ Hur) as (room & ? & ?).
    by exists rid, room.
Qed.

(** On an orderly run C6 holds as the specification words it, with "in a
    room" meaning that some room lists the user. *)
Theorem leave_room_on_orderly_run t st user_id msg_id now :
  orderly t st →
  let run := CM.leave_room user_id msg_id now st in
  (¬ listed st user_id → run = (Return None, st))
  ∧ (listed st user_id →
     ∃ room_id room log,
       rooms st !! room_id = Some room
       ∧ user_id ∈ ids st (Room.participants room)
       ∧ room_messages st !! room_id = Some log
       ∧ run.1 = Return (Some room_id)
       ∧ ¬ listed run.2 user_id
       ∧ let rest := filter (λ p, User.id (deref st p) ≠ user_id)
                       (Room.participants room) in
         match rest with
         | [] =>
             rooms run.2 = delete room_id (rooms st)
             ∧ room_messages run.2 = delete room_id (room_messages st)
         | _ :: _ =>
             (∃ room', rooms run.2 = <[room_id := room']> (rooms st)
                       ∧ Room.participants room' = rest)
             ∧ room_messages run.2
               = <[room_id :=
                     log ++ [ChatMessage.mk msg_id room_id "system" "시스템"
                               (leaver_name st user_id +:+ "님이 나가셨습니다.")
                               now "system"]]> (room_messages st)
         end).
Proof.
  intros Hord run. subst run.
  pose proof (orderly_listed_mapped t st user_id Hord) as Hiff.
  pose proof (orderly_inv _ _ Hord) as [Hreach _].
  pose proof (reachable_wf _ Hreach) as Hwf.
  split.
  - intros Hno. apply leave_room_absent.
    destruct (user_rooms st !! user_id) eqn:Hur; [| done].
    exfalso. apply Hno, Hiff. by eexists.
  - intros [room_id Hur]%Hiff.
    destruct (leave_room_present user_id msg_id now st room_id Hwf Hur)
      as (room & log & Hroom & Hlog & Hrun).
    destruct (wf_user_rooms _ Hwf _ _ Hur) as (room' & Hroom' & Hin).
    assert (room' = room) as -> by congruence.
    exists room_id, room, log. split_and!; try done.
    + by rewrite Hrun.
    + pose proof (orderly_leave_room t user_id msg_id now st Hord) as Hafter.
      unfold exec in Hafter.
      intros Hl%(orderly_listed_mapped t); [| done].
      rewrite Hrun in Hl. simpl in Hl. unfold departed in Hl.
      destruct (filter _ _); simpl in Hl; rewrite lookup_delete_eq in Hl;
        by destruct Hl.
    + rewrite Hrun. simpl. unfold departed.
      destruct (filter _ _) as [|first rest]; simpl; split_and!; try done.
      by eexists.
Qed.

Lemma listed_rooms_listing st user_id :
  listed st user_id → rooms_listing st user_id ≠ [].
Proof.
  intros (rid & room & Hroom & Hin) Hnil.
  assert (rid ∈ rooms_listing st user_id) as Hrid; [| by rewrite Hnil in Hrid; apply elem_of_nil in Hrid].
  unfold rooms_listing. apply list_elem_of_fmap. exists (rid, room). split; [done |].
  apply list_elem_of_filter. split; [done |]. by apply elem_of_map_to_list.
Qed.

Lemma orderly_lobby : orderly 4 lobby.
Proof.
  unfold lobby.
  do 4 (apply orderly_register; [| done | simpl; lia];
        apply orderly_new_user; [| simpl; lia];
        eapply orderly_wait; [| apply Nat.le_succ_diag_r]).
  apply orderly_init.
Qed.

Lemma orderly_trio : orderly 7 trio.
Proof.
  unfold trio.
  apply orderly_join_room;
    [| vm_compute; lia | intros Hl%listed_rooms_listing; by vm_compute in Hl].
  eapply (orderly_wait 6); [| lia].
  apply orderly_join_room;
    [| vm_compute; lia | intros Hl%listed_rooms_listing; by vm_compute in Hl].
  eapply (orderly_wait 5); [| lia].
  apply orderly_create_room;
    [| vm_compute; lia | done | intros Hl%listed_rooms_listing; by vm_compute in Hl].
  eapply orderly_wait; [apply orderly_lobby | lia].
Qed.


Lemma leave_room_on_orderly_run_witness :
  let run := CM.leave_room "u2" "m3" 8 trio in
  (¬ listed trio "u2" → run = (Return None, trio))
  ∧ (listed trio "u2" →
     ∃ room_id room log,
       rooms trio !! room_id = Some room
       ∧ "u2" ∈ ids trio (Room.participants room)
       ∧ room_messages trio !! room_id = Some log
       ∧ run.1 = Return (Some room_id)
       ∧ ¬ listed run.2 "u2"
       ∧ let rest := filter (λ p, User.id (deref trio p) ≠ "u2")
                       (Room.participants room) in
         match rest with
         | [] =>
             rooms run.2 = delete room_id (rooms trio)
             ∧ room_messages run.2 = delete room_id (room_messages trio)
         | _ :: _ =>
             (∃ room', rooms run.2 = <[room_id := room']> (rooms trio)
                       ∧ Room.participants room' = rest)
             ∧ room_messages run.2
               = <[room_id :=
                     log ++ [ChatMessage.mk "m3" room_id "system" "시스템"
                               (leaver_name trio "u2" +:+ "님이 나가셨습니다.")
                               8 "system"]]> (room_messages trio)
         end).
Proof. apply (leave_room_on_orderly_run 7 trio "u2" "m3" 8 orderly_trio). Defined.

(** ** Where the second membership shows *)

(** C3 fails on the code through the defect of C5.  Bob joined Ann's room
    before Cyd did and then joined Dee's room as well; [join_room] did not
    take him out of Ann's room and wrote the new [joined_at] on the one
    instance that both rooms list.  When Ann leaves, Bob, the first of the
    list, becomes host, although Cyd's [joined_at] is the earlier one. *)
Theorem failover_promotes_later_joiner :
  reachable two_rooms
  ∧ let st' := exec (CM.leave_room "u1" "m4" 10) two_rooms in
    (Room.host_id <$> rooms st' !! "room_0000cafe") = Some "u2"
    ∧ (Room.participants <$> rooms st' !! "room_0000cafe") = Some [1; 2]
    ∧ User.id (deref st' 1) = "u2"
    ∧ User.joined_at (deref st' 1) = 9
    ∧ User.id (deref st' 2) = "u3"
    ∧ User.joined_at (deref st' 2) = 7.
Proof. split; [apply reachable_two_rooms | by vm_compute]. Qed.

(** C6 fails on the code through the defect of C5.  Bob is listed in two
    rooms and the user-room mapping remembers the second only.  His first
    [leave_room] takes him out of that one and drops the mapping entry;
    from then on Ann's room still lists him, yet [leave_room] returns
    [None] for him and changes nothing. *)
Theorem listed_user_cannot_leave :
  reachable bob_left_once
  ∧ listed bob_left_once "u2"
  ∧ ∀ msg_id now,
      CM.leave_room "u2" msg_id now bob_left_once = (Return None, bob_left_once).
Proof.
  split_and!.
  - apply reachable_leave, reachable_two_rooms.
  - exists "room_0000cafe". eexists. split; [by vm_compute |].
    vm_compute. right. left.
  - intros msg_id now. apply leave_room_absent. by vm_compute.
Qed.
